(** * A shallow embedding of [scripts/rl_node.py]

    The node [RLNode] turns odometry and lidar messages into either a drive
    command or a reference trajectory, by alternating a learned policy with
    a forward simulator.

    Conventions of the embedding:
    - a Python or numpy float is a real number ([R]); rounding, infinities
      and the float32 casts of the numpy buffers are not modelled.  The one
      place where the source can manufacture a [nan] from finite data is
      [np.arccos], so a yaw is an [option R] in which [None] stands for
      [nan];
    - Python exceptions are values of [Exn]; a callback is a computation in
      the monad [M], which threads the attributes of [self], collects the
      calls made to the outside world (policy, simulator, publishers) as a
      list of [Event]s, and may raise;
    - the policy (an ONNX session), the simulator (a gym environment) and the
      configuration file are not part of the repository: they are the
      variables of the section [Node]. *)

From Stdlib Require Import Reals Lra Lia ZArith.
From stdpp Require Import base list.

Local Open Scope R_scope.

(** ** Python and numpy primitives *)

Module Np.

(** [np.clip(a, lo, hi)], that is [minimum(maximum(a, lo), hi)]. *)
Definition clip (a lo hi : R) : R := Rmin (Rmax a lo) hi.

(** [math.floor] on a float. *)
Definition floor (x : R) : Z := Int_part x.

(** [x % m] on floats: the result takes the sign of the divisor. *)
Definition mod_ (x m : R) : R := x - IZR (floor (x / m)) * m.

(** [int(x)] on a float: truncation towards zero. *)
Definition int (x : R) : Z :=
  if Rle_dec 0 x then floor x else (- floor (- x))%Z.

(** [np.arccos]: [nan] outside of [[-1, 1]]. *)
Definition arccos (x : R) : option R :=
  if Rle_dec (-1) x then
    if Rle_dec x 1 then Some (acos x) else None
  else None.

(** [np.arctan2(y, x)], the angle of the vector [(x, y)]. *)
Definition arctan2 (y x : R) : R :=
  if Rlt_dec 0 x then atan (y / x)
  else if Rlt_dec x 0 then
    if Rle_dec 0 y then atan (y / x) + PI else atan (y / x) - PI
  else if Rlt_dec 0 y then PI / 2
  else if Rlt_dec y 0 then - (PI / 2)
  else 0.

(** [np.arange(start, stop, step)] on non-negative integers with
    [0 < step]: [ceil((stop - start) / step)] values. *)
Definition arange (start stop step : nat) : list nat :=
  (fun i => start + i * step)%nat
    <$> seq 0 ((stop - start + (step - 1)) / step)%nat.

End Np.

(** ** Exceptions and results *)

Inductive Exn : Set :=
| IndexError
| ValueError
| ZeroDivisionError.

Inductive Res (A : Type) : Type :=
| Ok (a : A)
| Raised (e : Exn).
Arguments Ok {A} a.
Arguments Raised {A} e.

Module Py.

(** [a / b] on Python floats. *)
Definition div (a b : R) : Res R :=
  if Req_dec_T b 0 then Raised ZeroDivisionError else Ok (a / b).

(** [a // b] on non-negative integers. *)
Definition floordiv (a b : nat) : Res nat :=
  match b with
  | O => Raised ZeroDivisionError
  | S _ => Ok (a / b)%nat
  end.

(** [values[index]] for an integer index array: every index must be in
    range. *)
Fixpoint take {A} (values : list A) (index : list nat) : Res (list A) :=
  match index with
  | [] => Ok []
  | i :: index' =>
      match values !! i with
      | None => Raised IndexError
      | Some v =>
          match take values index' with
          | Ok vs => Ok (v :: vs)
          | Raised e => Raised e
          end
      end
  end.

(** [a[i] = v] on the rows of an array. *)
Definition setitem {A} (a : list A) (i : nat) (v : A) : Res (list A) :=
  if decide (i < length a)%nat then Ok (<[i := v]> a) else Raised IndexError.

(** [row[:] = vs] with numpy broadcasting: the shapes agree, or the source
    has a single element. *)
Definition assign_row {A} (row vs : list A) : Res (list A) :=
  if decide (length vs = length row) then Ok vs
  else match vs with
       | [v] => Ok (replicate (length row) v)
       | _ => Raised ValueError
       end.

(** The elements of [l] at the positions [skip], [skip + k],
    [skip + 2k], ... (for [0 < k]). *)
Fixpoint every_from {A} (k skip : nat) (l : list A) : list A :=
  match l with
  | [] => []
  | x :: l' =>
      match skip with
      | O => x :: every_from k (k - 1) l'
      | S skip' => every_from k skip' l'
      end
  end.

(** [a[::k]]: every [k]-th row from the first one on for [0 < k], every
    [-k]-th row from the last one backwards for [k < 0]. *)
Definition slice_step {A} (a : list A) (k : Z) : Res (list A) :=
  if decide (0 < k)%Z then Ok (every_from (Z.to_nat k) 0 a)
  else if decide (k = 0)%Z then Raised ValueError
  else Ok (every_from (Z.to_nat (- k)) 0 (reverse a)).

(** An element-wise operation on two one-dimensional arrays, with numpy
    broadcasting: the lengths agree, or one of the arrays has a single
    element. *)
Definition broadcast {A B C} (f : A → B → C) (a : list A) (b : list B)
  : Res (list C) :=
  if decide (length a = length b) then Ok (zip_with f a b)
  else match a, b with
       | [u], _ => Ok (f u <$> b)
       | _, [v] => Ok ((λ u, f u v) <$> a)
       | _, _ => Raised ValueError
       end.

End Py.

#[global] Instance Res_ret : MRet Res := λ A a, Ok a.
#[global] Instance Res_bind : MBind Res := λ A B f m,
  match m with
  | Ok a => f a
  | Raised e => Raised e
  end.

(** ** Messages, configuration and data of the node *)

(** [geometry_msgs] points and vectors. *)
Record Vector3 : Type := { x : R; y : R; z : R }.

Record Quaternion : Type := { qx : R; qy : R; qz : R; qw : R }.

(** [nav_msgs/Odometry], without header and covariances:
    [msg.pose.pose.position], [msg.pose.pose.orientation],
    [msg.twist.twist.linear] and [msg.twist.twist.angular]. *)
Record Odometry : Type := {
  position : Vector3;
  orientation : Quaternion;
  linear : Vector3;
  angular : Vector3
}.

(** [sensor_msgs/LaserScan]. *)
Record LaserScan : Type := {
  range_min : R;
  range_max : R;
  angle_min : R;
  angle_max : R;
  angle_increment : R;
  ranges : list R
}.

(** The fields of the configuration file that the node reads. *)
Record Config : Type := {
  is_sim : bool;
  num_scans : nat;
  n_steps : Z;
  sim_time_step : R;
  rl_sim_time_step : R;
  use_mppi : bool
}.

(** A pose [(x, y, yaw)]; the yaw may be [nan]. *)
Definition Pose : Type := R * R * option R.

(** The observation dictionary given to the policy. *)
Record Obs : Type := {
  scan : list R;
  pose : Pose;
  vel : R * R * R;
  heading : R * R
}.

(** The observation dictionary returned by [env.step], for the one agent;
    [scans] is its row of the scan matrix. *)
Record SimObs : Type := {
  scans : list R;
  poses_x : R;
  poses_y : R;
  poses_theta : R;
  linear_vels_x : R;
  linear_vels_y : R;
  ang_vels_z : R
}.

(** A row of the reference trajectory, in the order of [to_mppi_state]. *)
Record MppiState : Type := {
  st_x : R;
  st_y : R;
  st_delta : R;
  st_vx : R;
  st_yaw : option R;
  st_yaw_rate : R;
  st_beta : R
}.

(** A row of [np.zeros]. *)
Definition zero_row : MppiState :=
  {| st_x := 0; st_y := 0; st_delta := 0; st_vx := 0; st_yaw := Some 0;
     st_yaw_rate := 0; st_beta := 0 |}.

(** The fields of a marker that depend on the trajectory. *)
Record Marker : Type := {
  marker_position : R * R;
  marker_orientation : Quaternion;
  marker_id : nat
}.

(** The calls that leave the node. *)
Inductive Event : Type :=
| ModelRun (obs : Obs)
| EnvReset (poses : Pose)
| EnvStep (action : R * R)
| PublishDrive (steering_angle speed : R)
| PublishViz (markers : list Marker)
| PublishTraj (ref_traj : list MppiState).

(** ** Constants of [__init__] *)

Definition LF : R := 0.15875.
Definition LR : R := 0.17145.
Definition CONTROL_MAX : R * R := (0.4189, 4.0).

(** The number of beams of the lidar, as written in [__init__]. *)
Definition FULL_SCAN : nat := 1080.

(** ** Pure methods *)

(** [RLNode.get_beta] *)
Definition get_beta (steer : R) : R :=
  atan (LR * tan steer / (LF + LR)).

(** [RLNode.to_mppi_state] *)
Definition to_mppi_state (x y : R) (yaw : option R) (yaw_rate vx vy delta : R)
  : MppiState :=
  {| st_x := x;
     st_y := y;
     st_delta := delta;
     st_vx := vx;
     st_yaw := (λ yaw, Np.mod_ (yaw + PI) (2 * PI) - PI) <$> yaw;
     st_yaw_rate := yaw_rate;
     st_beta := Np.arctan2 vy vx |}.

(** The orientation that [visualize_future_pose] gives to a marker. *)
Definition yaw_orientation (pose_yaw : R) : Quaternion :=
  {| qx := 0; qy := 0; qz := sin (pose_yaw / 2); qw := cos (pose_yaw / 2) |}.

(** The loop of [visualize_future_pose]: one marker per element of [xs]. *)
Fixpoint markers (i : nat) (xs ys yaws : list R) : Res (list Marker) :=
  match xs with
  | [] => Ok []
  | x :: xs' =>
      match ys, yaws with
      | y :: ys', yaw :: yaws' =>
          ms ← markers (S i) xs' ys' yaws';
          Ok ({| marker_position := (x, y);
                 marker_orientation := yaw_orientation yaw;
                 marker_id := i |} :: ms)
      | _, _ => Raised IndexError
      end
  end.

(** ** A scenario

    A simulator that moves the vehicle along the x axis at the commanded
    speed and returns scans of 1080 readings, a policy that always asks for
    half of the maximal speed, and the configurations and messages that the
    examples at the end of the file run the node on. *)

Module Scenario.

Definition SimState : Type := R * R * R.

Definition make (timestep : R) (num_beams : nat) : SimState := (0, 0, 0).

Definition reset (e : SimState) (p : Pose) : SimState :=
  (p.1.1, p.1.2, default 0 p.2).

Definition step (e : SimState) (action : R * R) : SimState * SimObs :=
  let e' := (e.1.1 + action.2 * 0.025, e.1.2, e.2) in
  (e', {| scans := replicate 1080 10;
          poses_x := e'.1.1;
          poses_y := e'.1.2;
          poses_theta := e'.2;
          linear_vels_x := action.2;
          linear_vels_y := 0;
          ang_vels_z := 0 |}).

Definition policy (obs : Obs) : R * R := (0, 0.5).

(** Two outer steps of 0.1 s over an inner step of 0.025 s: a horizon of
    8 inner steps and a resampling ratio of 4. *)
Definition plan : Config :=
  {| is_sim := true; num_scans := 540; n_steps := 2;
     sim_time_step := 0.1; rl_sim_time_step := 0.025; use_mppi := true |}.

(** Two steps of 0.025 s, inner and outer: a horizon of 2. *)
Definition short : Config :=
  {| is_sim := true; num_scans := 540; n_steps := 2;
     sim_time_step := 0.025; rl_sim_time_step := 0.025; use_mppi := true |}.

(** The same as [plan], in direct-drive mode. *)
Definition drive : Config :=
  {| is_sim := true; num_scans := 540; n_steps := 2;
     sim_time_step := 0.1; rl_sim_time_step := 0.025; use_mppi := false |}.

(** The vehicle at the origin, heading along x at 1 m/s. *)
Definition at_origin : Odometry :=
  {| position := {| x := 0; y := 0; z := 0 |};
     orientation := {| qx := 0; qy := 0; qz := 0; qw := 1 |};
     linear := {| x := 1; y := 0; z := 0 |};
     angular := {| x := 0; y := 0; z := 0 |} |}.

(** An orientation that is not normalised. *)
Definition malformed : Odometry :=
  {| position := {| x := 0; y := 0; z := 0 |};
     orientation := {| qx := 0; qy := 0; qz := 0; qw := 2 |};
     linear := {| x := 1; y := 0; z := 0 |};
     angular := {| x := 0; y := 0; z := 0 |} |}.

(** A scan of 1080 readings and a scan of 540 readings, all of 1 m, in a
    range of 0 to 5 m. *)
Definition full_scan : LaserScan :=
  {| range_min := 0; range_max := 5; angle_min := 0; angle_max := 0;
     angle_increment := 0; ranges := replicate 1080 1 |}.

Definition half_scan : LaserScan :=
  {| range_min := 0; range_max := 5; angle_min := 0; angle_max := 0;
     angle_increment := 0; ranges := replicate 540 1 |}.

(** A scan of 1080 readings of 3 m whose range bounds are swapped. *)
Definition inverted_scan : LaserScan :=
  {| range_min := 5; range_max := 1; angle_min := 0; angle_max := 0;
     angle_increment := 0; ranges := replicate 1080 3 |}.

(** A simulator that returns scans of 540 readings. *)
Definition step_540 (e : SimState) (action : R * R) : SimState * SimObs :=
  let e' := (e.1.1 + action.2 * 0.025, e.1.2, e.2) in
  (e', {| scans := replicate 540 10;
          poses_x := e'.1.1;
          poses_y := e'.1.2;
          poses_theta := e'.2;
          linear_vels_x := action.2;
          linear_vels_y := 0;
          ang_vels_z := 0 |}).

(** A beam count that does not divide 1080. *)
Definition seven : Config :=
  {| is_sim := true; num_scans := 7; n_steps := 2;
     sim_time_step := 0.1; rl_sim_time_step := 0.025; use_mppi := true |}.

(** An outer step that is shorter than the inner step: a horizon of
    [int(5 * 0.01 / 0.025) = 2] and a resampling ratio of [int(0.4) = 0]. *)
Definition coarse : Config :=
  {| is_sim := true; num_scans := 540; n_steps := 5;
     sim_time_step := 0.01; rl_sim_time_step := 0.025; use_mppi := true |}.

(** A negative number of steps: [N_SIM = int(-4.0) = -4]. *)
Definition backwards : Config :=
  {| is_sim := true; num_scans := 540; n_steps := -1;
     sim_time_step := 0.1; rl_sim_time_step := 0.025; use_mppi := true |}.


(** A number of steps of -1 with equal time steps: [N_SIM = -1]. *)
Definition minus_one : Config :=
  {| is_sim := true; num_scans := 540; n_steps := -1;
     sim_time_step := 0.025; rl_sim_time_step := 0.025; use_mppi := false |}.

(** A second message: the vehicle one metre further, with [w = 0.5]. *)
Definition further : Odometry :=
  {| position := {| x := 1; y := 0; z := 0 |};
     orientation := {| qx := 0; qy := 0; qz := 0; qw := 0.5 |};
     linear := {| x := 1; y := 0; z := 0 |};
     angular := {| x := 0; y := 0; z := 0 |} |}.

End Scenario.

(** ** The node *)

Section Node.

(** The simulator: the type of its states, [gym.make] with the time step
    and the number of beams of the configuration, [env.reset] to a pose
    and [env.step] with an action [(steer, vel)]. *)
Variable EnvState : Type.
Variable env_make : R → nat → EnvState.
Variable env_reset : EnvState → Pose → EnvState.
Variable env_step : EnvState → R * R → EnvState * SimObs.

(** The policy: the first two components of
    [self.model.run(None, obs)[0][0, 0]]. *)
Variable model : Obs → R * R.

(** The attributes of [self] that the callbacks read or write. *)
Record Node : Type := {
  config : Config;
  self_pose : Pose;
  self_vels : R * R * R;
  self_heading : R * R;
  SCAN_INDEX : list nat;
  laser_scan : list R;
  env : EnvState;
  N_SIM : Z;
  DRIVE : bool
}.

Definition set_pose (p : Pose) (s : Node) : Node :=
  {| config := config s; self_pose := p; self_vels := self_vels s;
     self_heading := self_heading s; SCAN_INDEX := SCAN_INDEX s;
     laser_scan := laser_scan s; env := env s; N_SIM := N_SIM s;
     DRIVE := DRIVE s |}.

Definition set_vels (v : R * R * R) (s : Node) : Node :=
  {| config := config s; self_pose := self_pose s; self_vels := v;
     self_heading := self_heading s; SCAN_INDEX := SCAN_INDEX s;
     laser_scan := laser_scan s; env := env s; N_SIM := N_SIM s;
     DRIVE := DRIVE s |}.

Definition set_heading (h : R * R) (s : Node) : Node :=
  {| config := config s; self_pose := self_pose s; self_vels := self_vels s;
     self_heading := h; SCAN_INDEX := SCAN_INDEX s;
     laser_scan := laser_scan s; env := env s; N_SIM := N_SIM s;
     DRIVE := DRIVE s |}.

Definition set_laser_scan (l : list R) (s : Node) : Node :=
  {| config := config s; self_pose := self_pose s; self_vels := self_vels s;
     self_heading := self_heading s; SCAN_INDEX := SCAN_INDEX s;
     laser_scan := l; env := env s; N_SIM := N_SIM s; DRIVE := DRIVE s |}.

Definition set_env (e : EnvState) (s : Node) : Node :=
  {| config := config s; self_pose := self_pose s; self_vels := self_vels s;
     self_heading := self_heading s; SCAN_INDEX := SCAN_INDEX s;
     laser_scan := laser_scan s; env := e; N_SIM := N_SIM s;
     DRIVE := DRIVE s |}.

(** *** The monad of the callbacks

    A computation runs on the attributes of [self] and gives a result or
    an exception, the new attributes and the events it has emitted. *)
Definition M (A : Type) : Type := Node → Res A * Node * list Event.

#[global] Instance M_ret : MRet M := λ A a s, (Ok a, s, []).
#[global] Instance M_bind : MBind M := λ A B f m s,
  match m s with
  | (Ok a, s1, ev1) => let '(r, s2, ev2) := f a s1 in (r, s2, ev1 ++ ev2)
  | (Raised e, s1, ev1) => (Raised e, s1, ev1)
  end.

Definition lift {A} (r : Res A) : M A := λ s, (r, s, []).
Definition gets {A} (f : Node → A) : M A := λ s, (Ok (f s), s, []).
Definition modify (f : Node → Node) : M unit := λ s, (Ok (), f s, []).
Definition emit (e : Event) : M unit := λ s, (Ok (), s, [e]).

(** [self.env.reset(options={"poses": ...})] and [self.env.step(action)] *)
Definition reset (poses : Pose) : M unit := λ s,
  (Ok (), set_env (env_reset (env s) poses) s, [EnvReset poses]).

Definition step (action : R * R) : M SimObs := λ s,
  let '(e, obs) := env_step (env s) action in
  (Ok obs, set_env e s, [EnvStep action]).

(** *** [__init__] *)

Definition init (cfg : Config) : Res Node :=
  let N_BEAMS := num_scans cfg in
  stride ← Py.floordiv FULL_SCAN N_BEAMS;
  (* [np.arange] with a zero step *)
  _ ← (if decide (stride = 0%nat) then Raised ZeroDivisionError else Ok ());
  ratio ← Py.div (IZR (n_steps cfg) * sim_time_step cfg) (rl_sim_time_step cfg);
  Ok {| config := cfg;
        self_pose := (0, 0, Some 0);
        self_vels := (0, 0, 0);
        self_heading := (0, 0);
        SCAN_INDEX := Np.arange 0 FULL_SCAN stride;
        laser_scan := replicate N_BEAMS 10;
        env := env_make (rl_sim_time_step cfg) N_BEAMS;
        N_SIM := Np.int ratio;
        DRIVE := negb (use_mppi cfg) |}.

(** *** [laser_callback] *)

Definition laser_callback (msg : LaserScan) : M unit :=
  let min_range := range_min msg in
  let max_range := range_max msg in
  let values := ranges msg in
  let values := (λ v, Np.clip v min_range max_range) <$> values in
  index ← gets SCAN_INDEX;
  selected ← lift (Py.take values index);
  row ← gets laser_scan;
  row ← lift (Py.assign_row row selected);
  modify (set_laser_scan row).

(** *** [lidar2world] *)

(** The sum of two floats that may be [nan]. *)
Definition nan_add (a b : option R) : option R :=
  match a, b with
  | Some a, Some b => Some (a + b)
  | _, _ => None
  end.

(** The result is the matrix of two rows [R @ lidar2body + [[x, y]]]; the
    pose has the shape [(1, 2)], so the sum broadcasts it along each row. *)
Definition lidar2world (lidar angles : list R) : M (list (list (option R))) :=
  body_x ← lift (Py.broadcast Rmult lidar (cos <$> angles));
  body_y ← lift (Py.broadcast Rmult lidar (sin <$> angles));
  p ← gets self_pose;
  let yaw := p.2 in
  let row0 :=
    zip_with (λ u v, (λ yaw, cos yaw * u + - sin yaw * v) <$> yaw)
      body_x body_y in
  let row1 :=
    zip_with (λ u v, (λ yaw, sin yaw * u + cos yaw * v) <$> yaw)
      body_x body_y in
  let t := [Some p.1.1; Some p.1.2] in
  row0 ← lift (Py.broadcast nan_add row0 t);
  row1 ← lift (Py.broadcast nan_add row1 t);
  mret [row0; row1].

(** *** [run_model] *)

(** [control.clip(-1.0, 1.0) * self.CONTROL_MAX], component by component. *)
Definition clip_scale (control : R * R) : R * R :=
  (Np.clip control.1 (-1) 1 * CONTROL_MAX.1,
   Np.clip control.2 (-1) 1 * CONTROL_MAX.2).

Definition run_model (obs : Obs) : M (R * R) :=
  emit (ModelRun obs);;
  let control := model obs in
  let control := clip_scale control in
  let steer := control.1 in
  let vel := control.2 in
  mret (steer, vel).

(** *** [visualize_future_pose] *)

Definition visualize_future_pose (xs ys yaws : list R) : M unit :=
  ms ← lift (markers 0 xs ys yaws);
  emit (PublishViz ms).

(** *** [pose_callback] *)

(** The variables of [pose_callback] that live across the iterations of
    its loop. *)
Record Locals : Type := {
  v_steer : R;
  v_vel : R;
  v_xs : list R;
  v_ys : list R;
  v_yaws : list R;
  v_ref_traj : list MppiState
}.

(** The body of the loop [for i in range(self.N_SIM)]. *)
Definition rollout_step (i : nat) (l : Locals) : M Locals :=
  obs ← step (v_steer l, v_vel l);
  index ← gets SCAN_INDEX;
  scan ← lift (Py.take (scans obs) index);
  let x := poses_x obs in
  let y := poses_y obs in
  let yaw := poses_theta obs in
  let vel_x := linear_vels_x obs in
  let vel_y := linear_vels_y obs in
  let vel_ori := ang_vels_z obs in
  let xs := v_xs l ++ [x] in
  let ys := v_ys l ++ [y] in
  let yaws := v_yaws l ++ [yaw] in
  let beta := get_beta (v_steer l) in
  let obs := {| scan := scan;
                pose := (x, y, Some yaw);
                vel := (vel_x, vel_y, vel_ori);
                heading := (v_steer l, beta) |} in
  '(steer, vel) ← run_model obs;
  ref_traj ← lift (Py.setitem (v_ref_traj l) (i + 1)
                     (to_mppi_state x y (Some yaw) vel_ori vel_x vel_y steer));
  mret {| v_steer := steer; v_vel := vel; v_xs := xs; v_ys := ys;
          v_yaws := yaws; v_ref_traj := ref_traj |}.

Fixpoint rollout_loop (range : list nat) (l : Locals) : M Locals :=
  match range with
  | [] => mret l
  | i :: range' => l ← rollout_step i l; rollout_loop range' l
  end.

(** [np.zeros((n, 7))] *)
Definition zeros (n : Z) : Res (list MppiState) :=
  if decide (n < 0)%Z then Raised ValueError
  else Ok (replicate (Z.to_nat n) zero_row).

Definition pose_callback (msg : Odometry) : M unit :=
  n_sim ← gets N_SIM;
  ref_traj ← lift (zeros (n_sim + 1));
  let pos := position msg in
  let ori := orientation msg in
  let lin_vel := linear msg in
  let ori_vel := angular msg in
  let yaw := Rmult 2 <$> Np.arccos (qw ori) in
  modify (set_pose (x pos, y pos, yaw));;
  modify (set_vels (x lin_vel, y lin_vel, z ori_vel));;
  obs ← gets (λ s, {| scan := laser_scan s; pose := self_pose s;
                      vel := self_vels s; heading := self_heading s |});
  '(steer, vel) ← run_model obs;
  modify (set_heading (steer, get_beta steer));;
  ref_traj ← lift (Py.setitem ref_traj 0
                     (to_mppi_state (x pos) (y pos) yaw (z ori_vel)
                        (x lin_vel) (y lin_vel) steer));
  drive ← gets DRIVE;
  if (drive : bool) then
    emit (PublishDrive steer vel)
  else
    reset (x pos, y pos, yaw);;
    l ← rollout_loop (seq 0 (Z.to_nat n_sim))
          {| v_steer := steer; v_vel := vel; v_xs := []; v_ys := [];
             v_yaws := []; v_ref_traj := ref_traj |};
    visualize_future_pose (v_xs l) (v_ys l) (v_yaws l);;
    cfg ← gets config;
    ratio ← lift (Py.div (sim_time_step cfg) (rl_sim_time_step cfg));
    ref_traj ← lift (Py.slice_step (v_ref_traj l) (Np.int ratio));
    emit (PublishTraj ref_traj).

(** ** The unrolled rollout

    What the loop of [pose_callback] computes when nothing raises, as a
    function of the simulator state and of the action at its entry: one
    record per iteration. *)

Record Step : Type := {
  step_action : R * R;
  step_sim : SimObs;
  step_env : EnvState;
  step_obs : Obs;
  step_next : R * R
}.

(** [values[index]] when every index is in range. *)
Definition select (values : list R) (index : list nat) : list R :=
  (λ i, default 0 (values !! i)) <$> index.

Fixpoint unroll (index : list nat) (n : nat) (e : EnvState) (action : R * R)
  : list Step :=
  match n with
  | O => []
  | S n' =>
      let r := env_step e action in
      let o := r.2 in
      let obs := {| scan := select (scans o) index;
                    pose := (poses_x o, poses_y o, Some (poses_theta o));
                    vel := (linear_vels_x o, linear_vels_y o, ang_vels_z o);
                    heading := (action.1, get_beta action.1) |} in
      let next := clip_scale (model obs) in
      {| step_action := action; step_sim := o; step_env := r.1;
         step_obs := obs; step_next := next |}
        :: unroll index n' r.1 next
  end.

Definition step_events (st : Step) : list Event :=
  [EnvStep (step_action st); ModelRun (step_obs st)].

Definition step_state (st : Step) : MppiState :=
  let o := step_sim st in
  to_mppi_state (poses_x o) (poses_y o) (Some (poses_theta o)) (ang_vels_z o)
    (linear_vels_x o) (linear_vels_y o) (step_next st).1.

Definition last_env (e : EnvState) (sts : list Step) : EnvState :=
  default e (step_env <$> last sts).

Definition last_action (a : R * R) (sts : list Step) : R * R :=
  default a (step_next <$> last sts).

Fixpoint mk_markers (i : nat) (os : list SimObs) : list Marker :=
  match os with
  | [] => []
  | o :: os' =>
      {| marker_position := (poses_x o, poses_y o);
         marker_orientation := yaw_orientation (poses_theta o);
         marker_id := i |} :: mk_markers (S i) os'
  end.

(** The yaw that [pose_callback] computes from a message. *)
Definition msg_yaw (msg : Odometry) : option R :=
  Rmult 2 <$> Np.arccos (qw (orientation msg)).

(** The observation of the first call of the policy in a cycle. *)
Definition first_obs (s : Node) (msg : Odometry) : Obs :=
  {| scan := laser_scan s;
     pose := (x (position msg), y (position msg), msg_yaw msg);
     vel := (x (linear msg), y (linear msg), z (angular msg));
     heading := self_heading s |}.

Definition first_action (s : Node) (msg : Odometry) : R * R :=
  clip_scale (model (first_obs s msg)).

(** Row 0 of the trajectory: the real state and the first action. *)
Definition first_state (s : Node) (msg : Odometry) : MppiState :=
  to_mppi_state (x (position msg)) (y (position msg)) (msg_yaw msg)
    (z (angular msg)) (x (linear msg)) (y (linear msg))
    (first_action s msg).1.

(** The attributes after the first part of [pose_callback]. *)
Definition estimated (s : Node) (msg : Odometry) : Node :=
  set_heading ((first_action s msg).1, get_beta (first_action s msg).1)
    (set_vels (x (linear msg), y (linear msg), z (angular msg))
       (set_pose (x (position msg), y (position msg), msg_yaw msg) s)).

(** The iterations of a planning cycle with horizon [n]. *)
Definition cycle_steps (s : Node) (msg : Odometry) (n : nat) : list Step :=
  unroll (SCAN_INDEX s) n
    (env_reset (env s) (x (position msg), y (position msg), msg_yaw msg))
    (first_action s msg).

(** The fine-grained trajectory of a planning cycle. *)
Definition fine_traj (s : Node) (msg : Odometry) (n : nat) : list MppiState :=
  first_state s msg :: (step_state <$> cycle_steps s msg n).

(** The end of a planning cycle: the trajectory that is published. *)
Definition resampled (s : Node) (full : list MppiState)
  : Res (list MppiState) :=
  ratio ← Py.div (sim_time_step (config s)) (rl_sim_time_step (config s));
  Py.slice_step full (Np.int ratio).

(** The simulator returns scans that cover the indices of the node. *)
Definition sim_scans_cover (s : Node) : Prop :=
  ∀ e a i, i ∈ SCAN_INDEX s → (i < length (scans (env_step e a).2))%nat.

Definition heading_consistent (h : R * R) : Prop :=
  h.2 = get_beta h.1.

(** What holds of an event after the first call of the policy: a call of
    the policy gets a heading command and the slip angle of that very
    command. *)
Definition later_event (ev : Event) : Prop :=
  match ev with
  | ModelRun obs => heading_consistent (heading obs)
  | _ => True
  end.

(** The node is set up for [nb] beams. *)
Definition configured (nb : nat) (s : Node) : Prop :=
  SCAN_INDEX s = Np.arange 0 FULL_SCAN (FULL_SCAN / nb)
  ∧ length (laser_scan s) = nb.

(** What no callback changes: the configuration, the indices, the horizon,
    the mode and the length of the scan buffer. *)
Definition same_setup (s s' : Node) : Prop :=
  config s' = config s ∧ SCAN_INDEX s' = SCAN_INDEX s ∧ N_SIM s' = N_SIM s
  ∧ DRIVE s' = DRIVE s ∧ length (laser_scan s') = length (laser_scan s).

(** The states of a running node: the one that [__init__] sets up for a
    configuration, and those that the callbacks leave, whether they return
    or raise. *)
Inductive reachable (cfg : Config) : Node → Prop :=
| reachable_init (s : Node) : init cfg = Ok s → reachable cfg s
| reachable_laser (s : Node) (msg : LaserScan) :
    reachable cfg s → reachable cfg (laser_callback msg s).1.2
| reachable_pose (s : Node) (msg : Odometry) :
    reachable cfg s → reachable cfg (pose_callback msg s).1.2.

(** The attributes that [__init__] sets when it does not raise. *)
Definition fresh (cfg : Config) : Node :=
  {| config := cfg;
     self_pose := (0, 0, Some 0);
     self_vels := (0, 0, 0);
     self_heading := (0, 0);
     SCAN_INDEX := Np.arange 0 FULL_SCAN (FULL_SCAN / num_scans cfg);
     laser_scan := replicate (num_scans cfg) 10;
     env := env_make (rl_sim_time_step cfg) (num_scans cfg);
     N_SIM := Np.int (IZR (n_steps cfg) * sim_time_step cfg
                      / rl_sim_time_step cfg);
     DRIVE := negb (use_mppi cfg) |}.

(** The velocities from which the rows of the fine-grained trajectory are
    built: those of the message, then those of the simulator. *)
Definition recorded_velocities (s : Node) (msg : Odometry) (n : nat)
  : list (R * R) :=
  (x (linear msg), y (linear msg))
    :: ((λ st, (linear_vels_x (step_sim st), linear_vels_y (step_sim st)))
          <$> cycle_steps s msg n).

(** The trajectories that a list of events publishes. *)
Definition published (evs : list Event) : list (list MppiState) :=
  omap (λ ev, match ev with PublishTraj t => Some t | _ => None end) evs.

(** Counting the events of a kind. *)
Definition is_model_run (e : Event) : bool :=
  match e with ModelRun _ => true | _ => false end.

Definition is_env_step (e : Event) : bool :=
  match e with EnvStep _ => true | _ => false end.

Definition count (f : Event → bool) (evs : list Event) : nat :=
  length (List.filter f evs).

(** ** Facts about the primitives *)

Lemma clip_bounds (a lo hi : R) : lo <= hi → lo <= Np.clip a lo hi <= hi.
Proof.
  intros Hle. unfold Np.clip, Rmin, Rmax.
  destruct (Rle_dec a lo); destruct (Rle_dec _ hi); lra.
Qed.

Lemma clip_fixed (a lo hi : R) : lo <= a <= hi → Np.clip a lo hi = a.
Proof.
  intros Ha. unfold Np.clip, Rmin, Rmax.
  destruct (Rle_dec a lo); destruct (Rle_dec _ hi); lra.
Qed.

Lemma floor_spec (r : R) : IZR (Np.floor r) <= r < IZR (Np.floor r) + 1.
Proof. unfold Np.floor. destruct (base_Int_part r). lra. Qed.

Lemma floor_unique (r : R) (k : Z) : IZR k <= r < IZR k + 1 → Np.floor r = k.
Proof.
  intros Hk. unfold Np.floor. symmetry. apply Int_part_spec. lra.
Qed.

Lemma int_unique (r : R) (k : Z) :
  (0 <= k)%Z → IZR k <= r < IZR k + 1 → Np.int r = k.
Proof.
  intros Hk Hr. unfold Np.int.
  assert (0 <= IZR k) by (apply IZR_le in Hk; lra).
  destruct (Rle_dec 0 r); [by apply floor_unique | lra].
Qed.

Lemma mod_bounds (a m : R) : 0 < m → 0 <= Np.mod_ a m < m.
Proof.
  intros Hm. unfold Np.mod_.
  destruct (floor_spec (a / m)) as [Hlo Hhi].
  assert (Ha : a = a / m * m) by (field; lra).
  split.
  - apply (Rmult_le_compat_r m) in Hlo; lra.
  - apply (Rmult_lt_compat_r m) in Hhi; lra.
Qed.

Lemma mod_shift (a m : R) (k : Z) :
  0 < m → IZR k * m <= a < IZR k * m + m → Np.mod_ a m = a - IZR k * m.
Proof.
  intros Hm [Hlo Hhi]. unfold Np.mod_. rewrite (floor_unique (a / m) k); [done|].
  split.
  - apply (Rmult_le_reg_r m); [done|]. replace (a / m * m) with a by (field; lra). lra.
  - apply (Rmult_lt_reg_r m); [done|]. replace (a / m * m) with a by (field; lra). lra.
Qed.

Lemma arccos_in (w : R) : -1 <= w <= 1 → Np.arccos w = Some (acos w).
Proof.
  intros [? ?]. unfold Np.arccos.
  destruct (Rle_dec (-1) w); [|lra]. destruct (Rle_dec w 1); [done|lra].
Qed.

Lemma arccos_out (w : R) : w < -1 ∨ 1 < w → Np.arccos w = None.
Proof.
  intros Hw. unfold Np.arccos.
  destruct (Rle_dec (-1) w); [|done]. destruct (Rle_dec w 1); [lra|done].
Qed.

Lemma take_ok {A} (values : list A) (index : list nat) :
  (∀ i, i ∈ index → (i < length values)%nat) →
  ∃ vs, Py.take values index = Ok vs ∧ length vs = length index
        ∧ ∀ j i, index !! j = Some i → vs !! j = values !! i.
Proof.
  induction index as [|i index IH]; intros Hin; simpl.
  - exists []. split_and!; [done..|]. intros j i Hj. by rewrite lookup_nil in Hj.
  - destruct (lookup_lt_is_Some_2 values i) as [v Hv].
    { apply Hin. left. }
    destruct IH as (vs & -> & Hlen & Hvs).
    { intros j Hj. apply Hin. by right. }
    rewrite Hv. exists (v :: vs). split_and!; [done|simpl; lia|].
    intros [|j] i' Hj; simpl in *.
    + by injection Hj as <-.
    + by apply Hvs.
Qed.

Lemma take_select (values : list R) (index : list nat) :
  (∀ i, i ∈ index → (i < length values)%nat) →
  Py.take values index = Ok (select values index).
Proof.
  induction index as [|i index IH]; intros Hin; simpl; [done|].
  destruct (lookup_lt_is_Some_2 values i) as [v Hv].
  { apply Hin. left. }
  rewrite Hv, IH; [|intros j Hj; apply Hin; by right].
  done.
Qed.

Lemma take_short {A} (values : list A) (index : list nat) (i : nat) :
  i ∈ index → (length values <= i)%nat → Py.take values index = Raised IndexError.
Proof.
  intros Hi Hlen. induction index as [|j index IH]; [by apply elem_of_nil in Hi|].
  simpl. apply elem_of_cons in Hi as [<-|Hi].
  - by rewrite lookup_ge_None_2.
  - destruct (values !! j); [|done]. by rewrite IH.
Qed.

Lemma every_from_length {A} (k skip : nat) (l : list A) :
  (0 < k)%nat →
  length (Py.every_from k skip l) = ((length l + (k - 1) - skip) / k)%nat.
Proof.
  intros Hk. revert skip. induction l as [|a l IH]; intros skip; simpl.
  - symmetry. apply Nat.div_small. lia.
  - destruct skip as [|skip]; cbn [Py.every_from length]; rewrite IH.
    + replace (length l + (k - 1) - (k - 1))%nat with (length l) by lia.
      replace (S (length l + (k - 1)) - 0)%nat with (length l + 1 * k)%nat by lia.
      rewrite Nat.div_add by lia. lia.
    + f_equal.
Qed.

Lemma arange_length (n stride : nat) :
  (0 < n)%nat → (stride * n = FULL_SCAN)%nat →
  length (Np.arange 0 FULL_SCAN stride) = n.
Proof.
  intros Hn Hs. unfold Np.arange. rewrite length_fmap, length_seq.
  assert (0 < stride)%nat by (unfold FULL_SCAN in Hs; lia).
  replace (FULL_SCAN - 0 + (stride - 1))%nat with (stride - 1 + n * stride)%nat by lia.
  rewrite Nat.div_add by lia. rewrite Nat.div_small by lia. done.
Qed.

Lemma arange_elem (stop stride i : nat) :
  (0 < stride)%nat → i ∈ Np.arange 0 stop stride → (i < stop)%nat.
Proof.
  intros Hs Hi. unfold Np.arange in Hi.
  apply list_elem_of_fmap in Hi as (j & -> & Hj).
  apply elem_of_seq in Hj.
  assert (Hdiv : (j < (stop - 0 + (stride - 1)) / stride)%nat) by lia.
  assert (Hm := Nat.div_mod_eq (stop - 0 + (stride - 1)) stride).
  assert (Hr := Nat.mod_upper_bound (stop - 0 + (stride - 1)) stride).
  nia.
Qed.

(** ** Running the callbacks *)

Lemma set_env_same (s : Node) : set_env (env s) s = s.
Proof. by destruct s. Qed.

Lemma last_env_cons (e : EnvState) (st : Step) (sts : list Step) :
  last_env e (st :: sts) = last_env (step_env st) sts.
Proof. unfold last_env. rewrite last_cons. by destruct (last sts). Qed.

Lemma last_action_cons (a : R * R) (st : Step) (sts : list Step) :
  last_action a (st :: sts) = last_action (step_next st) sts.
Proof. unfold last_action. rewrite last_cons. by destruct (last sts). Qed.

Lemma unroll_length (index : list nat) (n : nat) (e : EnvState) (a : R * R) :
  length (unroll index n e a) = n.
Proof. revert e a. induction n as [|n IH]; intros e a; simpl; [done|]. by rewrite IH. Qed.

Lemma markers_run (i : nat) (os : list SimObs) :
  markers i (poses_x <$> os) (poses_y <$> os) (poses_theta <$> os)
  = Ok (mk_markers i os).
Proof.
  revert i. induction os as [|o os IH]; intros i; simpl; [done|].
  by rewrite IH.
Qed.

(** One iteration of the loop, when the scan of the simulator covers the
    indices and the row exists. *)
Lemma rollout_step_run (i : nat) (l : Locals) (s : Node) :
  sim_scans_cover s → (i + 1 < length (v_ref_traj l))%nat →
  ∃ st, unroll (SCAN_INDEX s) 1 (env s) (v_steer l, v_vel l) = [st] ∧
    rollout_step i l s =
      (Ok {| v_steer := (step_next st).1;
             v_vel := (step_next st).2;
             v_xs := v_xs l ++ [poses_x (step_sim st)];
             v_ys := v_ys l ++ [poses_y (step_sim st)];
             v_yaws := v_yaws l ++ [poses_theta (step_sim st)];
             v_ref_traj := <[(i + 1)%nat := step_state st]> (v_ref_traj l) |},
       set_env (step_env st) s,
       step_events st).
Proof.
  intros Hcover Hi. eexists. split; [reflexivity|].
  unfold rollout_step, step, run_model, emit, gets, lift, mbind, M_bind, mret, M_ret.
  specialize (Hcover (env s) (v_steer l, v_vel l)).
  destruct (env_step (env s) (v_steer l, v_vel l)) as [e o] eqn:Hstep.
  cbn [fst snd SCAN_INDEX set_env] in *.
  rewrite take_select by done.
  unfold Py.setitem. rewrite decide_True by done.
  reflexivity.
Qed.

Lemma unroll_succ (index : list nat) (n : nat) (e : EnvState) (a : R * R)
    (st : Step) :
  unroll index 1 e a = [st] →
  unroll index (S n) e a = st :: unroll index n (step_env st) (step_next st).
Proof. simpl. by intros [= <-]. Qed.

(** The loop over [range(i, i + n)], when nothing raises. *)
Lemma rollout_loop_run (n i : nat) (l : Locals) (s : Node) :
  sim_scans_cover s → (i + n < length (v_ref_traj l))%nat →
  let sts := unroll (SCAN_INDEX s) n (env s) (v_steer l, v_vel l) in
  rollout_loop (seq i n) l s =
    (Ok {| v_steer := (last_action (v_steer l, v_vel l) sts).1;
           v_vel := (last_action (v_steer l, v_vel l) sts).2;
           v_xs := v_xs l ++ (poses_x ∘ step_sim <$> sts);
           v_ys := v_ys l ++ (poses_y ∘ step_sim <$> sts);
           v_yaws := v_yaws l ++ (poses_theta ∘ step_sim <$> sts);
           v_ref_traj := take (S i) (v_ref_traj l) ++ (step_state <$> sts)
                           ++ drop (S i + n) (v_ref_traj l) |},
     set_env (last_env (env s) sts) s,
     sts ≫= step_events).
Proof.
  revert i l s. induction n as [|n IH]; intros i l s Hcover Hlen sts.
  - subst sts. simpl. unfold mret, M_ret.
    rewrite !app_nil_r, Nat.add_0_r, take_drop.
    unfold last_env, last_action. simpl. rewrite set_env_same. by destruct l.
  - destruct (rollout_step_run i l s Hcover) as (st & Hst & Hrun); [lia|].
    subst sts. rewrite (unroll_succ _ _ _ _ _ Hst).
    cbn [seq rollout_loop]. unfold mbind at 1, M_bind at 1. rewrite Hrun.
    rewrite IH; [| done | cbn [v_ref_traj]; rewrite length_insert; lia].
    cbn [v_steer v_vel v_xs v_ys v_yaws v_ref_traj env SCAN_INDEX set_env].
    rewrite last_env_cons, last_action_cons, <- (surjective_pairing (step_next st)).
    rewrite !fmap_cons, bind_cons, <- !(assoc_L (++)).
    assert (Htraj :
      take (S (S i)) (<[(i + 1)%nat:=step_state st]> (v_ref_traj l))
        ++ (step_state <$> unroll (SCAN_INDEX s) n (step_env st) (step_next st))
        ++ drop (S (S i) + n) (<[(i + 1)%nat:=step_state st]> (v_ref_traj l))
      = take (S i) (v_ref_traj l)
        ++ step_state st
           :: (step_state <$> unroll (SCAN_INDEX s) n (step_env st) (step_next st))
        ++ drop (S i + S n) (v_ref_traj l)).
    { rewrite Nat.add_1_r.
      rewrite drop_insert_lt by lia.
      rewrite (take_S_r _ _ (step_state st)).
      2:{ apply list_lookup_insert_eq. lia. }
      rewrite take_insert_ge by lia.
      rewrite <- (assoc_L (++)). simpl.
      by rewrite Nat.add_succ_r. }
    rewrite Htraj. by destruct s.
Qed.

(** Running a bind, for each of the basic computations. *)
Lemma run_gets {A B} (f : Node → A) (k : A → M B) (s : Node) :
  (gets f ≫= k) s = k (f s) s.
Proof.
  unfold mbind, M_bind, gets. by destruct (k (f s) s) as [[? ?] ?].
Qed.

Lemma run_modify {B} (f : Node → Node) (k : () → M B) (s : Node) :
  (modify f ≫= k) s = k () (f s).
Proof.
  unfold mbind, M_bind, modify. by destruct (k () (f s)) as [[? ?] ?].
Qed.

Lemma run_lift_ok {A B} (a : A) (k : A → M B) (s : Node) :
  (lift (Ok a) ≫= k) s = k a s.
Proof.
  unfold mbind, M_bind, lift. by destruct (k a s) as [[? ?] ?].
Qed.

Lemma run_lift_raised {A B} (e : Exn) (k : A → M B) (s : Node) :
  (lift (Raised e) ≫= k) s = (Raised e, s, []).
Proof. done. Qed.

Lemma run_emit {B} (ev : Event) (k : () → M B) (s : Node) :
  (emit ev ≫= k) s = let '(r, s2, evs) := k () s in (r, s2, ev :: evs).
Proof. done. Qed.

Lemma run_run_model {B} (obs : Obs) (k : R * R → M B) (s : Node) :
  (run_model obs ≫= k) s =
  let '(r, s2, evs) := k (clip_scale (model obs)) s in
  (r, s2, ModelRun obs :: evs).
Proof.
  set (c := clip_scale (model obs)).
  unfold run_model, mbind, M_bind, emit, mret, M_ret. fold c.
  cbn beta iota zeta. rewrite <- (surjective_pairing c).
  by destruct (k c s) as [[? ?] ?].
Qed.

Lemma run_reset {B} (p : Pose) (k : () → M B) (s : Node) :
  (reset p ≫= k) s =
  let '(r, s2, evs) := k () (set_env (env_reset (env s) p) s) in
  (r, s2, EnvReset p :: evs).
Proof. done. Qed.

Lemma run_assoc {A B C} (m : M A) (f : A → M B) (g : B → M C) (s : Node) :
  ((m ≫= f) ≫= g) s = (m ≫= λ a, f a ≫= g) s.
Proof.
  unfold mbind, M_bind.
  destruct (m s) as [[[a|e] s1] ev1]; [|done].
  destruct (f a s1) as [[[b|e] s2] ev2]; [|done].
  destruct (g b s2) as [[r s3] ev3]. by rewrite (assoc_L (++)).
Qed.

Lemma zeros_succ (n : nat) :
  zeros (Z.of_nat n + 1) = Ok (zero_row :: replicate n zero_row).
Proof.
  unfold zeros. rewrite decide_False by lia.
  replace (Z.to_nat (Z.of_nat n + 1)) with (S n) by lia. done.
Qed.

(** The first part of [pose_callback], up to the test of [self.DRIVE],
    when the trajectory has a row 0. *)
Lemma pose_callback_head (s : Node) (msg : Odometry) (n : nat) :
  N_SIM s = Z.of_nat n →
  let p0 := (x (position msg), y (position msg), msg_yaw msg) in
  pose_callback msg s =
  let '(r, s2, evs) :=
    (if DRIVE s then
       emit (PublishDrive (first_action s msg).1 (first_action s msg).2)
     else
       reset p0;;
       l ← rollout_loop (seq 0 n)
             {| v_steer := (first_action s msg).1;
                v_vel := (first_action s msg).2;
                v_xs := []; v_ys := []; v_yaws := [];
                v_ref_traj := first_state s msg :: replicate n zero_row |};
       visualize_future_pose (v_xs l) (v_ys l) (v_yaws l);;
       cfg ← gets config;
       ratio ← lift (Py.div (sim_time_step cfg) (rl_sim_time_step cfg));
       ref_traj ← lift (Py.slice_step (v_ref_traj l) (Np.int ratio));
       emit (PublishTraj ref_traj)) (estimated s msg) in
  (r, s2, ModelRun (first_obs s msg) :: evs).
Proof.
  intros Hn p0. unfold pose_callback.
  rewrite run_gets, Hn, zeros_succ, run_lift_ok, !run_modify, run_gets.
  rewrite run_run_model.
  cbn [laser_scan self_pose self_vels self_heading set_pose set_vels].
  fold (msg_yaw msg). fold (first_obs s msg). fold (first_action s msg).
  destruct (first_action s msg) as [steer vel] eqn:Hact.
  rewrite run_modify.
  unfold Py.setitem. rewrite decide_True by (simpl; lia).
  rewrite run_lift_ok, run_gets, Nat2Z.id.
  cbn [DRIVE set_heading set_vels set_pose fst snd].
  unfold estimated, first_state. rewrite Hact. reflexivity.
Qed.

(** A cycle in direct-drive mode. *)
Lemma pose_callback_drive (s : Node) (msg : Odometry) :
  DRIVE s = true → (0 <= N_SIM s)%Z →
  pose_callback msg s =
    (Ok (), estimated s msg,
     [ModelRun (first_obs s msg);
      PublishDrive (first_action s msg).1 (first_action s msg).2]).
Proof.
  intros Hdrive Hn.
  rewrite (pose_callback_head s msg (Z.to_nat (N_SIM s))) by lia.
  by rewrite Hdrive.
Qed.

(** A planning cycle with horizon [n], when the simulator's scans cover
    the indices of the node. *)
Lemma pose_callback_plan (s : Node) (msg : Odometry) (n : nat) :
  DRIVE s = false → N_SIM s = Z.of_nat n → sim_scans_cover s →
  let p0 := (x (position msg), y (position msg), msg_yaw msg) in
  let sts := cycle_steps s msg n in
  let out := resampled s (fine_traj s msg n) in
  pose_callback msg s =
    (match out with Ok _ => Ok () | Raised e => Raised e end,
     set_env (last_env (env_reset (env s) p0) sts) (estimated s msg),
     ModelRun (first_obs s msg) :: EnvReset p0 :: (sts ≫= step_events)
       ++ PublishViz (mk_markers 0 (step_sim <$> sts))
       :: match out with Ok t => [PublishTraj t] | Raised _ => [] end).
Proof.
  intros Hdrive Hn Hcover p0 sts out.
  rewrite (pose_callback_head s msg n Hn), Hdrive. fold p0.
  rewrite run_reset.
  unfold mbind at 1, M_bind at 1.
  rewrite rollout_loop_run; [| done | simpl; rewrite length_replicate; lia].
  cbn [v_steer v_vel v_xs v_ys v_yaws v_ref_traj env SCAN_INDEX set_env
         estimated set_heading set_vels set_pose app].
  rewrite <- (surjective_pairing (first_action s msg)).
  fold (estimated s msg). change (unroll _ _ _ _) with sts.
  rewrite drop_ge by (simpl; rewrite length_replicate; lia).
  rewrite app_nil_r.
  change (take 1 (first_state s msg :: ?l) ++ ?t)
    with (first_state s msg :: t).
  change (first_state s msg :: (step_state <$> sts)) with (fine_traj s msg n).
  unfold visualize_future_pose.
  rewrite !list_fmap_compose, markers_run.
  rewrite run_assoc, run_lift_ok, run_emit, run_gets.
  cbn [config set_env estimated set_heading set_vels set_pose].
  subst out. unfold resampled.
  destruct (Py.div _ _) as [ratio|e]; [|rewrite run_lift_raised; reflexivity].
  rewrite run_lift_ok. change (Ok ratio ≫= ?f) with (f ratio). cbv beta.
  destruct (Py.slice_step _ _) as [t|e]; [|rewrite run_lift_raised; reflexivity].
  rewrite run_lift_ok. unfold emit. reflexivity.
Qed.

(** *** Whatever the simulator returns *)

Lemma zeros_zero : zeros (-1 + 1) = Ok [].
Proof. done. Qed.

Lemma pose_callback_no_rows (s : Node) (msg : Odometry) :
  (N_SIM s < -1)%Z → pose_callback msg s = (Raised ValueError, s, []).
Proof.
  intros Hn. unfold pose_callback. rewrite run_gets.
  unfold zeros. by rewrite decide_True by lia.
Qed.

Lemma pose_callback_no_row0 (s : Node) (msg : Odometry) :
  N_SIM s = (-1)%Z →
  pose_callback msg s =
    (Raised IndexError, estimated s msg, [ModelRun (first_obs s msg)]).
Proof.
  intros Hn. unfold pose_callback.
  rewrite run_gets, Hn, zeros_zero, run_lift_ok, !run_modify, run_gets.
  rewrite run_run_model.
  cbn [laser_scan self_pose self_vels self_heading set_pose set_vels].
  fold (msg_yaw msg). fold (first_obs s msg). fold (first_action s msg).
  destruct (first_action s msg) as [steer vel] eqn:Hact.
  rewrite run_modify. unfold estimated. by rewrite Hact.
Qed.

Lemma rollout_step_any (i : nat) (l : Locals) (s : Node) :
  ∃ r e evs, rollout_step i l s = (r, set_env e s, evs) ∧ Forall later_event evs.
Proof.
  unfold rollout_step.
  unfold mbind at 1, M_bind at 1, step.
  destruct (env_step (env s) (v_steer l, v_vel l)) as [e o].
  rewrite run_gets. cbn [SCAN_INDEX set_env].
  destruct (Py.take (scans o) (SCAN_INDEX s)) as [scan|ex].
  2:{ rewrite run_lift_raised. eexists _, e, _. split; [reflexivity|].
      by repeat constructor. }
  rewrite run_lift_ok, run_run_model.
  destruct (clip_scale _) as [steer vel].
  destruct (Py.setitem _ _ _) as [rt|ex].
  - rewrite run_lift_ok. eexists _, e, _. split; [reflexivity|].
    by repeat constructor.
  - rewrite run_lift_raised. eexists _, e, _. split; [reflexivity|].
    by repeat constructor.
Qed.

Lemma rollout_loop_any (range : list nat) (l : Locals) (s : Node) :
  ∃ r e evs, rollout_loop range l s = (r, set_env e s, evs) ∧ Forall later_event evs.
Proof.
  revert l s. induction range as [|i range IH]; intros l s.
  - exists (Ok l), (env s), []. by rewrite set_env_same.
  - cbn [rollout_loop]. unfold mbind, M_bind.
    destruct (rollout_step_any i l s) as ([l1|ex] & e1 & evs1 & -> & Hevs1).
    + destruct (IH l1 (set_env e1 s)) as (r & e2 & evs2 & -> & Hevs2).
      exists r, e2, (evs1 ++ evs2). split; [done|]. by apply Forall_app.
    + by exists (Raised ex), e1, evs1.
Qed.

(** Every cycle that gets as far as the policy stores the estimated state
    and calls the policy on it; afterwards only the simulator changes. *)
Lemma pose_callback_any (s : Node) (msg : Odometry) :
  (-1 <= N_SIM s)%Z →
  ∃ r e evs,
    pose_callback msg s
    = (r, set_env e (estimated s msg), ModelRun (first_obs s msg) :: evs)
    ∧ Forall later_event evs.
Proof.
  intros Hn.
  destruct (decide (N_SIM s = -1)%Z) as [Hm|Hm].
  { rewrite pose_callback_no_row0 by done.
    exists (Raised IndexError), (env s), []. split; [|done].
    by destruct s. }
  rewrite (pose_callback_head s msg (Z.to_nat (N_SIM s))) by lia.
  destruct (DRIVE s).
  { eexists (Ok ()), (env s), [_]. split; [by destruct s|].
    by repeat constructor. }
  rewrite run_reset. unfold mbind at 1, M_bind at 1.
  match goal with
  | |- context [rollout_loop ?range ?l0 ?s0] =>
      destruct (rollout_loop_any range l0 s0) as ([l|ex] & e & evs & -> & Hevs)
  end.
  2:{ exists (Raised ex), e, (EnvReset (x (position msg), y (position msg), msg_yaw msg) :: evs).
      split; [done|]. by constructor. }
  unfold visualize_future_pose. rewrite run_assoc.
  destruct (markers 0 _ _ _) as [ms|ex].
  2:{ rewrite run_lift_raised. eexists (Raised ex), e, _. split; [reflexivity|].
      constructor; [done|]. by rewrite app_nil_r. }
  rewrite run_lift_ok, run_emit, run_gets.
  destruct (Py.div _ _) as [ratio|ex].
  2:{ rewrite run_lift_raised. eexists (Raised ex), e, _. split; [reflexivity|].
      constructor; [done|]. apply Forall_app. split; [done|]. by repeat constructor. }
  rewrite run_lift_ok.
  destruct (Py.slice_step _ _) as [t|ex].
  2:{ rewrite run_lift_raised. eexists (Raised ex), e, _. split; [reflexivity|].
      constructor; [done|]. apply Forall_app. split; [done|]. by repeat constructor. }
  rewrite run_lift_ok. eexists (Ok ()), e, _. split; [reflexivity|].
  constructor; [done|]. apply Forall_app. split; [done|]. by repeat constructor.
Qed.

(** *** Facts used by several properties *)

Lemma every_from_lookup {A} (k skip j : nat) (l : list A) :
  (0 < k)%nat → Py.every_from k skip l !! j = l !! (skip + j * k)%nat.
Proof.
  intros Hk. revert skip j. induction l as [|a l IH]; intros skip j.
  - by rewrite !lookup_nil.
  - destruct skip as [|skip]; cbn [Py.every_from].
    + destruct j as [|j]; [done|].
      replace (0 + S j * k)%nat with (S (k - 1 + j * k)) by lia.
      rewrite !lookup_cons. apply IH.
    + change (S skip + j * k)%nat with (S (skip + j * k)).
      rewrite lookup_cons. apply IH.
Qed.

Lemma count_cons (f : Event → bool) (ev : Event) (evs : list Event) :
  count f (ev :: evs) = ((if f ev then 1 else 0) + count f evs)%nat.
Proof. unfold count. simpl. by destruct (f ev). Qed.

Lemma count_app (f : Event → bool) (evs1 evs2 : list Event) :
  count f (evs1 ++ evs2) = (count f evs1 + count f evs2)%nat.
Proof. unfold count. by rewrite List.filter_app, length_app. Qed.

Lemma count_steps (sts : list Step) :
  count is_model_run (sts ≫= step_events) = length sts
  ∧ count is_env_step (sts ≫= step_events) = length sts.
Proof.
  induction sts as [|st sts [IH1 IH2]]; [done|].
  rewrite bind_cons, !count_app, IH1, IH2. done.
Qed.

Lemma published_app (evs1 evs2 : list Event) :
  published (evs1 ++ evs2) = published evs1 ++ published evs2.
Proof. unfold published. apply omap_app. Qed.

Lemma published_steps (sts : list Step) : published (sts ≫= step_events) = [].
Proof.
  induction sts as [|st sts IH]; [done|].
  by rewrite bind_cons, published_app, IH.
Qed.

Lemma fine_traj_length (s : Node) (msg : Odometry) (n : nat) :
  length (fine_traj s msg n) = (n + 1)%nat.
Proof.
  unfold fine_traj, cycle_steps. simpl.
  rewrite length_fmap, unroll_length. lia.
Qed.

(** The resampling of a planning cycle whose ratio of time steps
    truncates to [k]. *)
Lemma resampled_every (s : Node) (full : list MppiState) (k : nat) :
  rl_sim_time_step (config s) ≠ 0 →
  Np.int (sim_time_step (config s) / rl_sim_time_step (config s)) = Z.of_nat k →
  (0 < k)%nat →
  resampled s full = Ok (Py.every_from k 0 full).
Proof.
  intros Hrl Hk Hpos. unfold resampled, Py.div.
  destruct (Req_dec_T _ 0); [done|].
  change (Ok ?r ≫= ?f) with (f r). cbv beta. rewrite Hk.
  unfold Py.slice_step. rewrite decide_True by lia. by rewrite Nat2Z.id.
Qed.

(** What a planning cycle publishes. *)
Lemma pose_callback_published (s : Node) (msg : Odometry) (n k : nat) :
  DRIVE s = false → N_SIM s = Z.of_nat n → sim_scans_cover s →
  rl_sim_time_step (config s) ≠ 0 →
  Np.int (sim_time_step (config s) / rl_sim_time_step (config s)) = Z.of_nat k →
  (0 < k)%nat →
  published (pose_callback msg s).2 = [Py.every_from k 0 (fine_traj s msg n)].
Proof.
  intros Hdrive Hn Hcover Hrl Hk Hpos.
  rewrite (pose_callback_plan s msg n) by done. cbn [snd].
  rewrite (resampled_every s _ k) by done.
  change (ModelRun ?o :: EnvReset ?p :: ?l) with ([ModelRun o; EnvReset p] ++ l).
  rewrite !published_app, published_steps. done.
Qed.

(** *** [__init__] and [laser_callback] *)

Lemma bind_ok {A B} (a : A) (f : A → Res B) : Ok a ≫= f = f a.
Proof. done. Qed.

Lemma Ok_inj {A} (a b : A) : Ok a = Ok b → a = b.
Proof. by intros [= ->]. Qed.

Lemma init_run (cfg : Config) :
  (0 < num_scans cfg <= FULL_SCAN)%nat → rl_sim_time_step cfg ≠ 0 →
  init cfg = Ok (fresh cfg).
Proof.
  intros [Hpos Hle] Hrl. unfold init, fresh, Py.floordiv, Py.div.
  destruct (num_scans cfg) as [|nb] eqn:Hnb; [lia|].
  rewrite bind_ok.
  assert (FULL_SCAN / S nb ≠ 0)%nat as Hstride.
  { intros Hz. apply Nat.div_small_iff in Hz; lia. }
  rewrite decide_False by exact Hstride.
  rewrite bind_ok.
  destruct (Req_dec_T _ 0) as [Hz|Hz]; [by destruct Hrl|].
  by rewrite bind_ok.
Qed.

Lemma init_inv (cfg : Config) (s : Node) :
  init cfg = Ok s →
  configured (num_scans cfg) s ∧ self_heading s = (0, 0)
  ∧ DRIVE s = negb (use_mppi cfg) ∧ config s = cfg.
Proof.
  unfold init, Py.floordiv, Py.div.
  destruct (num_scans cfg) as [|nb] eqn:Hnb; [intros [=]|].
  rewrite bind_ok.
  destruct (decide _); [intros [=]|].
  rewrite bind_ok.
  destruct (Req_dec_T _ 0); [intros [=]|].
  rewrite bind_ok.
  intros Hs. apply Ok_inj in Hs. subst s. unfold configured.
  cbn [SCAN_INDEX laser_scan self_heading DRIVE config].
  rewrite length_replicate. by split_and!.
Qed.

Lemma arange_elem_le (n stride i : nat) :
  (stride * n = FULL_SCAN)%nat →
  i ∈ Np.arange 0 FULL_SCAN stride → (i <= FULL_SCAN - stride)%nat.
Proof.
  intros Hs Hi.
  assert (0 < stride)%nat by (unfold FULL_SCAN in Hs; lia).
  assert (0 < n)%nat by (unfold FULL_SCAN in Hs; lia).
  assert (Hlen := arange_length n stride ltac:(done) Hs).
  unfold Np.arange in Hi, Hlen.
  rewrite length_fmap, length_seq in Hlen.
  apply list_elem_of_fmap in Hi as (j & -> & Hj).
  apply elem_of_seq in Hj. rewrite Hlen in Hj. nia.
Qed.

Lemma select_length (values : list R) (index : list nat) :
  length (select values index) = length index.
Proof. unfold select. by rewrite length_fmap. Qed.

(** A scan that covers the indices, for a beam count that divides the
    number of beams of the lidar. *)
Lemma laser_callback_run (nb : nat) (s : Node) (msg : LaserScan) :
  configured nb s → (nb * (FULL_SCAN / nb) = FULL_SCAN)%nat →
  (FULL_SCAN - FULL_SCAN / nb < length (ranges msg))%nat →
  laser_callback msg s =
    (Ok (),
     set_laser_scan
       (select ((λ v, Np.clip v (range_min msg) (range_max msg)) <$> ranges msg)
          (SCAN_INDEX s)) s,
     []).
Proof.
  intros [Hidx Hlen] Hdiv Hcover. unfold laser_callback.
  rewrite run_gets, take_select.
  2:{ intros i Hi. rewrite Hidx in Hi.
      apply (arange_elem_le nb) in Hi; [|lia]. rewrite length_fmap. lia. }
  rewrite run_lift_ok, run_gets.
  unfold Py.assign_row. rewrite decide_True.
  2:{ rewrite select_length, Hidx, Hlen. apply arange_length; [|lia].
      unfold FULL_SCAN in Hdiv. lia. }
  by rewrite run_lift_ok.
Qed.

(** A scan that is too short for the indices. *)
Lemma laser_callback_short (nb : nat) (s : Node) (msg : LaserScan) :
  configured nb s → (nb * (FULL_SCAN / nb) = FULL_SCAN)%nat →
  (length (ranges msg) <= FULL_SCAN - FULL_SCAN / nb)%nat →
  laser_callback msg s = (Raised IndexError, s, []).
Proof.
  intros [Hidx Hlen] Hdiv Hshort. unfold laser_callback.
  rewrite run_gets, (take_short _ _ (FULL_SCAN - FULL_SCAN / nb)%nat).
  - by rewrite run_lift_raised.
  - rewrite Hidx. unfold Np.arange. apply list_elem_of_fmap.
    exists (nb - 1)%nat.
    assert (0 < nb)%nat by (unfold FULL_SCAN in Hdiv; lia).
    assert (Hl := arange_length nb (FULL_SCAN / nb) ltac:(done) ltac:(lia)).
    unfold Np.arange in Hl. rewrite length_fmap, length_seq in Hl.
    split; [nia|]. apply elem_of_seq. lia.
  - by rewrite length_fmap.
Qed.

Lemma select_Forall (P : R → Prop) (values : list R) (index : list nat) :
  Forall P values → (∀ i, i ∈ index → (i < length values)%nat) →
  Forall P (select values index).
Proof.
  intros HP Hin. unfold select. apply Forall_fmap, Forall_forall.
  intros i Hi. destruct (lookup_lt_is_Some_2 values i (Hin i Hi)) as [v Hv].
  cbn. rewrite Hv. cbn. eapply Forall_lookup_1; eauto.
Qed.

(** ** Properties of the node *)


Lemma wrap_bounds (yaw : R) :
  - PI <= Np.mod_ (yaw + PI) (2 * PI) - PI < PI.
Proof.
  assert (Hpi := PI_RGT_0).
  destruct (mod_bounds (yaw + PI) (2 * PI)); lra.
Qed.

(** C2, as the code has it: the wrapped yaw of a row is
    [((yaw + PI) mod 2 PI) - PI], which lies in [[-PI, PI)]; a yaw of
    [3 PI / 2] is wrapped to [- PI / 2]; and every row of the fine-grained
    trajectory whose yaw is a number has its wrapped yaw in [[-PI, PI)]. *)
Theorem yaw_wrapped_range (px py yaw yaw_rate vx vy delta : R) :
  (∃ w, st_yaw (to_mppi_state px py (Some yaw) yaw_rate vx vy delta) = Some w
        ∧ w = Np.mod_ (yaw + PI) (2 * PI) - PI
        ∧ - PI <= w < PI)
  ∧ st_yaw (to_mppi_state px py (Some (3 * PI / 2)) yaw_rate vx vy delta)
    = Some (- (PI / 2))
  ∧ ∀ s msg n,
      Forall (λ st, from_option (λ w, - PI <= w < PI) True (st_yaw st))
        (fine_traj s msg n).
Proof.
  assert (Hpi := PI_RGT_0).
  split_and!.
  - eexists. split_and!; [reflexivity..| |]; apply wrap_bounds.
  - cbn. f_equal. rewrite (mod_shift _ _ 1); lra.
  - intros s msg n. unfold fine_traj. constructor.
    + unfold first_state. cbn. destruct (msg_yaw msg); cbn; [|done].
      apply wrap_bounds.
    + apply Forall_fmap, Forall_forall. intros st _. cbn. apply wrap_bounds.
Qed.

(** C3, as the code has it: a planning cycle publishes one trajectory,
    made of the rows [0], [k], [2k], ... of the fine-grained trajectory of
    [n + 1] rows, where [k] is the ratio of the outer to the inner time
    step; it has [n / k + 1] rows, that is [3] rows for [n = 8] and
    [k = 4]. *)
Theorem published_trajectory_resampled (s : Node) (msg : Odometry) (n k : nat) :
  DRIVE s = false → N_SIM s = Z.of_nat n → sim_scans_cover s →
  rl_sim_time_step (config s) ≠ 0 →
  Np.int (sim_time_step (config s) / rl_sim_time_step (config s)) = Z.of_nat k →
  (0 < k)%nat →
  ∃ traj,
    published (pose_callback msg s).2 = [traj]
    ∧ length (fine_traj s msg n) = (n + 1)%nat
    ∧ (∀ j, traj !! j = fine_traj s msg n !! (j * k)%nat)
    ∧ length traj = (n / k + 1)%nat
    ∧ (n = 8%nat → k = 4%nat → length traj = 3%nat).
Proof.
  intros Hdrive Hn Hcover Hrl Hk Hpos.
  exists (Py.every_from k 0 (fine_traj s msg n)).
  assert (Hlen : length (Py.every_from k 0 (fine_traj s msg n)) = (n / k + 1)%nat).
  { rewrite every_from_length, fine_traj_length by done.
    replace (n + 1 + (k - 1) - 0)%nat with (n + 1 * k)%nat by lia.
    by rewrite Nat.div_add by lia. }
  split_and!.
  - by apply pose_callback_published.
  - apply fine_traj_length.
  - intros j. by rewrite every_from_lookup.
  - done.
  - intros -> ->. by rewrite Hlen.
Qed.

(** C4: whatever the policy returns, the action of [run_model] is the raw
    output clipped to [[-1, 1]] and scaled by the maxima, so the steering
    angle lies in [[-0.4189, 0.4189]] and the speed in [[-4, 4]]; clipping
    is idempotent, and clipping the action to these bounds changes
    nothing. *)
Theorem control_action_bounds (obs : Obs) (s : Node) :
  ∃ steer vel,
    run_model obs s = (Ok (steer, vel), s, [ModelRun obs])
    ∧ steer = Np.clip (model obs).1 (-1) 1 * 0.4189
    ∧ vel = Np.clip (model obs).2 (-1) 1 * 4.0
    ∧ -0.4189 <= steer <= 0.4189
    ∧ -4.0 <= vel <= 4.0
    ∧ Np.clip (Np.clip (model obs).1 (-1) 1) (-1) 1 = Np.clip (model obs).1 (-1) 1
    ∧ Np.clip (Np.clip (model obs).2 (-1) 1) (-1) 1 = Np.clip (model obs).2 (-1) 1
    ∧ Np.clip steer (-0.4189) 0.4189 = steer
    ∧ Np.clip vel (-4.0) 4.0 = vel.
Proof.
  destruct (clip_bounds (model obs).1 (-1) 1) as [? ?]; [lra|].
  destruct (clip_bounds (model obs).2 (-1) 1) as [? ?]; [lra|].
  exists (Np.clip (model obs).1 (-1) 1 * 0.4189), (Np.clip (model obs).2 (-1) 1 * 4.0).
  split_and!; try reflexivity; try lra; apply clip_fixed; lra.
Qed.

Lemma get_beta_0 : get_beta 0 = 0.
Proof.
  unfold get_beta. rewrite tan_0.
  replace (LR * 0 / (LF + LR)) with 0 by (unfold LF, LR; field; lra).
  apply atan_0.
Qed.

Lemma arctan2_axis : Np.arctan2 1 0 = PI / 2.
Proof.
  unfold Np.arctan2.
  destruct (Rlt_dec 0 0); [lra|]. destruct (Rlt_dec 0 1); [done|lra].
Qed.

Lemma stored_yaw (s : Node) (msg : Odometry) :
  (-1 <= N_SIM s)%Z →
  (self_pose (pose_callback msg s).1.2).2 = msg_yaw msg.
Proof.
  intros Hn.
  by destruct (pose_callback_any s msg) as (r & e & evs & -> & Hevs).
Qed.

(** C6, as the code has it: [pose_callback] gives the [w] of the
    orientation to the inverse cosine as it is, without clamping it; for
    [w] in [[-1, 1]] the stored yaw is the number [2 * acos w], and for
    [w] outside of [[-1, 1]] it is [nan]. *)
Theorem yaw_unclamped (s : Node) (msg : Odometry) :
  (-1 <= N_SIM s)%Z →
  (-1 <= qw (orientation msg) <= 1 →
   (self_pose (pose_callback msg s).1.2).2 = Some (2 * acos (qw (orientation msg))))
  ∧ (qw (orientation msg) < -1 ∨ 1 < qw (orientation msg) →
     (self_pose (pose_callback msg s).1.2).2 = None).
Proof.
  intros Hn. rewrite stored_yaw by done. unfold msg_yaw. split; intros Hw.
  - by rewrite arccos_in.
  - by rewrite arccos_out.
Qed.

Lemma arange_lookup (stop stride j : nat) :
  (j < length (Np.arange 0 stop stride))%nat →
  Np.arange 0 stop stride !! j = Some (j * stride)%nat.
Proof.
  unfold Np.arange. rewrite length_fmap, length_seq. intros Hj.
  rewrite list_lookup_fmap, lookup_seq_lt by done. done.
Qed.

Lemma select_lookup (values : list R) (index : list nat) (j i : nat) :
  index !! j = Some i → (i < length values)%nat →
  select values index !! j = values !! i.
Proof.
  intros Hj Hi. unfold select. rewrite list_lookup_fmap, Hj. cbn.
  by destruct (lookup_lt_is_Some_2 values i Hi) as [v ->].
Qed.

(** C7, as the code has it: the indices of the preprocessor are those of
    a lidar of 1080 beams, whatever the length of the scan is.  For a beam
    count [nb] that divides 1080 and a scan that has more than
    [1080 - 1080 / nb] readings, [laser_callback] overwrites the buffer
    with exactly [nb] readings, the clipped readings at the positions
    [0], [1080 / nb], [2 * (1080 / nb)], ..., and they lie in
    [[range_min, range_max]] when [range_min <= range_max]; the buffer
    that [__init__] sets up has [nb] readings. *)
Theorem scan_buffer (nb : nat) (s : Node) (msg : LaserScan) :
  configured nb s → (nb * (FULL_SCAN / nb) = FULL_SCAN)%nat →
  (FULL_SCAN - FULL_SCAN / nb < length (ranges msg))%nat →
  ∃ buf,
    laser_callback msg s = (Ok (), set_laser_scan buf s, [])
    ∧ length buf = nb
    ∧ (∀ j, (j < nb)%nat →
            buf !! j = ((λ v, Np.clip v (range_min msg) (range_max msg))
                          <$> ranges msg) !! (j * (FULL_SCAN / nb))%nat)
    ∧ (range_min msg <= range_max msg →
       Forall (λ r, range_min msg <= r <= range_max msg) buf)
    ∧ (∀ cfg s0, init cfg = Ok s0 → configured (num_scans cfg) s0).
Proof.
  intros Hconf Hdiv Hlen. destruct Hconf as [Hidx Hbuf].
  assert (Hnb : (0 < nb)%nat) by (unfold FULL_SCAN in Hdiv; lia).
  assert (Hal : length (Np.arange 0 FULL_SCAN (FULL_SCAN / nb)) = nb).
  { apply arange_length; [done|lia]. }
  assert (Hin : ∀ i, i ∈ SCAN_INDEX s →
            (i < length ((λ v, Np.clip v (range_min msg) (range_max msg))
                           <$> ranges msg))%nat).
  { intros i Hi. rewrite Hidx in Hi.
    apply (arange_elem_le nb) in Hi; [|lia]. rewrite length_fmap. lia. }
  eexists. split_and!.
  - by apply (laser_callback_run nb).
  - by rewrite select_length, Hidx.
  - intros j Hj. apply select_lookup.
    + rewrite Hidx. apply arange_lookup. by rewrite Hal.
    + apply Hin. rewrite Hidx. apply list_elem_of_lookup. exists j.
      apply arange_lookup. by rewrite Hal.
  - intros Hle. apply select_Forall; [|done].
    apply Forall_fmap, Forall_forall. intros v _. cbn. by apply clip_bounds.
  - intros cfg s0 Hinit. by apply init_inv in Hinit as (? & _).
Qed.

(** C8: resampling with a positive stride keeps the first row, so the
    trajectory published by a planning cycle starts with the row built
    from the pose and the velocities of the message and from the action
    that the policy gives for the real state. *)
Theorem published_first_row (s : Node) (msg : Odometry) (n k : nat) :
  DRIVE s = false → N_SIM s = Z.of_nat n → sim_scans_cover s →
  rl_sim_time_step (config s) ≠ 0 →
  Np.int (sim_time_step (config s) / rl_sim_time_step (config s)) = Z.of_nat k →
  (0 < k)%nat →
  (∀ (row : MppiState) rows,
     Py.every_from k 0 (row :: rows) = row :: Py.every_from k (k - 1) rows)
  ∧ ∃ rest,
      published (pose_callback msg s).2
      = [to_mppi_state (x (position msg)) (y (position msg))
           (Rmult 2 <$> Np.arccos (qw (orientation msg)))
           (z (angular msg)) (x (linear msg)) (y (linear msg))
           (clip_scale (model (first_obs s msg))).1
         :: rest].
Proof.
  intros Hdrive Hn Hcover Hrl Hk Hpos. split; [done|].
  rewrite (pose_callback_published s msg n k) by done.
  eexists. reflexivity.
Qed.

(** C9: in direct-drive mode a cycle calls the policy and publishes the
    drive command, and nothing else: it never resets or steps the
    simulator and publishes neither a trajectory nor markers; the
    simulator and the scan buffer are left as they were, and only the
    stored pose, velocities and heading are updated.  The mode is the
    negation of [use_mppi]. *)
Theorem drive_mode_returns (s : Node) (msg : Odometry) :
  DRIVE s = true →
  Forall (λ ev, match ev with
                | ModelRun _ | PublishDrive _ _ => True
                | _ => False
                end) (pose_callback msg s).2
  ∧ env (pose_callback msg s).1.2 = env s
  ∧ laser_scan (pose_callback msg s).1.2 = laser_scan s
  ∧ ((0 <= N_SIM s)%Z →
     pose_callback msg s =
       (Ok (),
        set_heading ((first_action s msg).1, get_beta (first_action s msg).1)
          (set_vels (x (linear msg), y (linear msg), z (angular msg))
             (set_pose (x (position msg), y (position msg), msg_yaw msg) s)),
        [ModelRun (first_obs s msg);
         PublishDrive (first_action s msg).1 (first_action s msg).2]))
  ∧ (∀ cfg s0, init cfg = Ok s0 → DRIVE s0 = negb (use_mppi cfg)).
Proof.
  intros Hdrive.
  assert (Hcases : (N_SIM s < -1 ∨ N_SIM s = -1 ∨ 0 <= N_SIM s)%Z) by lia.
  split_and!.
  - destruct Hcases as [Hn|[Hn|Hn]].
    + by rewrite pose_callback_no_rows.
    + rewrite pose_callback_no_row0 by done. by repeat constructor.
    + rewrite pose_callback_drive by done. by repeat constructor.
  - destruct Hcases as [Hn|[Hn|Hn]].
    + by rewrite pose_callback_no_rows.
    + by rewrite pose_callback_no_row0.
    + by rewrite pose_callback_drive.
  - destruct Hcases as [Hn|[Hn|Hn]].
    + by rewrite pose_callback_no_rows.
    + by rewrite pose_callback_no_row0.
    + by rewrite pose_callback_drive.
  - intros Hn. by rewrite pose_callback_drive.
  - intros cfg s0 Hinit. by apply init_inv in Hinit as (_ & _ & ? & _).
Qed.

(** C10: for [w] in [[-1, 1]] the stored yaw is [2 * acos w], which lies in
    [[0, 2 PI]]; it depends on the [w] of the orientation only, so the
    orientations of the rotations by [theta] and by [- theta] about the
    vertical axis give the same stored yaw. *)
Theorem yaw_nonnegative (s : Node) (msg : Odometry) :
  (-1 <= N_SIM s)%Z → -1 <= qw (orientation msg) <= 1 →
  (∃ yaw, (self_pose (pose_callback msg s).1.2).2 = Some yaw
          ∧ yaw = 2 * acos (qw (orientation msg))
          ∧ 0 <= yaw <= 2 * PI)
  ∧ (∀ msg', qw (orientation msg') = qw (orientation msg) →
             (self_pose (pose_callback msg' s).1.2).2
             = (self_pose (pose_callback msg s).1.2).2)
  ∧ (∀ theta msg1 msg2,
       orientation msg1 = yaw_orientation theta →
       orientation msg2 = yaw_orientation (- theta) →
       (self_pose (pose_callback msg1 s).1.2).2
       = (self_pose (pose_callback msg2 s).1.2).2).
Proof.
  intros Hn Hw. split_and!.
  - exists (2 * acos (qw (orientation msg))).
    rewrite stored_yaw by done. unfold msg_yaw. rewrite arccos_in by done.
    destruct (acos_bound (qw (orientation msg))).
    split_and!; [done|done|lra|lra].
  - intros msg' Hq. rewrite !stored_yaw by done. unfold msg_yaw. by rewrite Hq.
  - intros theta msg1 msg2 H1 H2. rewrite !stored_yaw by done.
    unfold msg_yaw. rewrite H1, H2. cbn.
    replace (- theta / 2) with (- (theta / 2)) by lra. by rewrite cos_neg.
Qed.

(** ** Further properties of the callbacks *)


Lemma assign_row_length {A} (row vs r : list A) :
  Py.assign_row row vs = Ok r → length r = length row.
Proof.
  unfold Py.assign_row. destruct (decide _) as [Hlen|Hlen].
  - intros Hr. apply Ok_inj in Hr. by subst r.
  - destruct vs as [|v [|? ?]]; intros Hr; try discriminate Hr.
    apply Ok_inj in Hr. subst r. by rewrite length_replicate.
Qed.

(** [laser_callback] writes the scan buffer and nothing else, without any
    call to the outside; it either raises and leaves the node as it was, or
    replaces the buffer by one of the same length. *)
Lemma laser_callback_any (msg : LaserScan) (s : Node) :
  ∃ r row, laser_callback msg s = (r, set_laser_scan row s, [])
           ∧ length row = length (laser_scan s).
Proof.
  unfold laser_callback. rewrite run_gets.
  destruct (Py.take _ _) as [sel|e].
  2:{ rewrite run_lift_raised. exists (Raised e), (laser_scan s).
      split; [by destruct s|done]. }
  rewrite run_lift_ok, run_gets.
  destruct (Py.assign_row _ _) as [row|e] eqn:Hrow.
  2:{ rewrite run_lift_raised. exists (Raised e), (laser_scan s).
      split; [by destruct s|done]. }
  rewrite run_lift_ok. exists (Ok ()), row.
  split; [done|]. by apply assign_row_length in Hrow.
Qed.

(** X2: No callback changes the configuration, the scan indices, the horizon,
    the mode or the length of the scan buffer, whether it returns or
    raises; [laser_callback] moreover leaves the pose, the velocities, the
    heading and the simulator alone and calls nothing outside. *)
Theorem callbacks_keep_setup (s : Node) :
  (∀ msg, same_setup s (laser_callback msg s).1.2)
  ∧ (∀ msg, same_setup s (pose_callback msg s).1.2)
  ∧ (∀ msg, (laser_callback msg s).2 = []
            ∧ self_pose (laser_callback msg s).1.2 = self_pose s
            ∧ self_vels (laser_callback msg s).1.2 = self_vels s
            ∧ self_heading (laser_callback msg s).1.2 = self_heading s
            ∧ env (laser_callback msg s).1.2 = env s).
Proof.
  split_and!.
  - intros msg. destruct (laser_callback_any msg s) as (r & row & -> & Hlen).
    by split_and!.
  - intros msg. destruct (decide (N_SIM s < -1)%Z) as [Hn|Hn].
    + rewrite pose_callback_no_rows by done. by split_and!.
    + destruct (pose_callback_any s msg) as (r & e & evs & -> & _); [lia|].
      by split_and!.
  - intros msg. destruct (laser_callback_any msg s) as (r & row & -> & Hlen).
    by split_and!.
Qed.

Lemma take_length {A} (values : list A) (index : list nat) (vs : list A) :
  Py.take values index = Ok vs → length vs = length index.
Proof.
  revert vs. induction index as [|i index IH]; intros vs; cbn.
  - intros Hvs. apply Ok_inj in Hvs. by subst vs.
  - destruct (values !! i); [|discriminate].
    destruct (Py.take values index) as [vs'|e]; [|discriminate].
    intros Hvs. apply Ok_inj in Hvs. subst vs. cbn. by rewrite (IH vs').
Qed.

Lemma broadcast_same {A B C} (f : A → B → C) (a : list A) (b : list B) :
  length a = length b → Py.broadcast f a b = Ok (zip_with f a b).
Proof. intros Hab. unfold Py.broadcast. by rewrite decide_True. Qed.

Lemma broadcast_mismatch {A B C} (f : A → B → C) (a : list A) (b : list B) :
  length a ≠ length b → length a ≠ 1%nat → length b ≠ 1%nat →
  Py.broadcast f a b = Raised ValueError.
Proof.
  intros Hab Ha Hb. unfold Py.broadcast. rewrite decide_False by done.
  destruct a as [|u [|? ?]]; destruct b as [|v [|? ?]]; done.
Qed.

(** X3: When the beam count does not divide 1080, [np.arange] gives more
    indices than the buffer has readings, and [laser_callback] raises on
    every scan: the buffer keeps the readings of [__init__] for ever. *)
Theorem laser_callback_indivisible (nb : nat) (s : Node) (msg : LaserScan) :
  configured nb s → (0 < nb <= FULL_SCAN)%nat →
  (nb * (FULL_SCAN / nb) ≠ FULL_SCAN)%nat →
  (nb < length (SCAN_INDEX s))%nat
  ∧ ∃ e, laser_callback msg s = (Raised e, s, []).
Proof.
  intros [Hidx Hbuf] [Hpos Hle] Hdiv.
  assert (Hstride : (0 < FULL_SCAN / nb)%nat) by (apply Nat.div_str_pos; lia).
  assert (Hmul : (nb * (FULL_SCAN / nb) <= FULL_SCAN)%nat)
    by (apply Nat.Div0.mul_div_le).
  assert (Hlen : (nb < length (SCAN_INDEX s))%nat).
  { rewrite Hidx. unfold Np.arange. rewrite length_fmap, length_seq.
    apply (Nat.div_le_lower_bound _ _ (S nb)); nia. }
  split; [done|].
  unfold laser_callback. rewrite run_gets.
  destruct (Py.take _ _) as [sel|e] eqn:Hsel.
  2:{ rewrite run_lift_raised. by exists e. }
  rewrite run_lift_ok, run_gets.
  assert (Hsl := take_length _ _ _ Hsel).
  unfold Py.assign_row. rewrite decide_False by lia.
  destruct sel as [|v [|? ?]]; cbn in Hsl.
  - rewrite run_lift_raised. by eexists.
  - lia.
  - rewrite run_lift_raised. by eexists.
Qed.

(** X4: Whatever the mode and whatever the simulator and the policy do, a cycle
    that finds a trajectory buffer leaves in the node the pose and the
    velocities of the message and the heading of the first action: the
    states and the actions of the simulated rollout never reach the stored
    state, and the scan buffer is not touched. *)
Theorem rollout_leaves_real_state (s : Node) (msg : Odometry) :
  (-1 <= N_SIM s)%Z →
  self_pose (pose_callback msg s).1.2
  = (x (position msg), y (position msg),
     Rmult 2 <$> Np.arccos (qw (orientation msg)))
  ∧ self_vels (pose_callback msg s).1.2
    = (x (linear msg), y (linear msg), z (angular msg))
  ∧ self_heading (pose_callback msg s).1.2
    = ((clip_scale (model (first_obs s msg))).1,
       get_beta (clip_scale (model (first_obs s msg))).1)
  ∧ laser_scan (pose_callback msg s).1.2 = laser_scan s.
Proof.
  intros Hn.
  by destruct (pose_callback_any s msg) as (r & e & evs & -> & _).
Qed.

(** X5: Two cycles in a row: the first call of the policy in the second cycle
    gets the pose and the velocities of the second message, the scan buffer
    as it was, and as heading the first action of the first cycle with its
    slip angle, not the last action of the rollout. *)
Theorem next_cycle_observation (s : Node) (msg1 msg2 : Odometry) :
  (-1 <= N_SIM s)%Z →
  (pose_callback msg2 (pose_callback msg1 s).1.2).2 !! 0%nat
  = Some (ModelRun
            {| scan := laser_scan s;
               pose := (x (position msg2), y (position msg2),
                        Rmult 2 <$> Np.arccos (qw (orientation msg2)));
               vel := (x (linear msg2), y (linear msg2), z (angular msg2));
               heading := ((clip_scale (model (first_obs s msg1))).1,
                           get_beta (clip_scale (model (first_obs s msg1))).1) |}).
Proof.
  intros Hn.
  destruct (pose_callback_any s msg1) as (r & e & evs & -> & _); [done|].
  cbn [fst snd].
  destruct (pose_callback_any (set_env e (estimated s msg1)) msg2)
    as (r2 & e2 & evs2 & -> & _); [done|].
  reflexivity.
Qed.

(** X6: A scan, then a pose: the first call of the policy in the cycle gets the
    readings that [laser_callback] has just stored, that is the clipped
    readings of the scan at the indices of the node. *)
Theorem scan_reaches_policy (nb : nat) (s : Node) (scan_msg : LaserScan)
    (msg : Odometry) :
  configured nb s → (nb * (FULL_SCAN / nb) = FULL_SCAN)%nat →
  (FULL_SCAN - FULL_SCAN / nb < length (ranges scan_msg))%nat →
  (-1 <= N_SIM s)%Z →
  ∃ obs,
    (pose_callback msg (laser_callback scan_msg s).1.2).2 !! 0%nat
    = Some (ModelRun obs)
    ∧ scan obs
      = select ((λ v, Np.clip v (range_min scan_msg) (range_max scan_msg))
                  <$> ranges scan_msg) (SCAN_INDEX s)
    ∧ length (scan obs) = nb
    ∧ heading obs = self_heading s.
Proof.
  intros Hconf Hdiv Hlen Hn.
  rewrite (laser_callback_run nb) by done. cbn [fst snd].
  destruct (pose_callback_any
              (set_laser_scan
                 (select ((λ v, Np.clip v (range_min scan_msg) (range_max scan_msg))
                            <$> ranges scan_msg) (SCAN_INDEX s)) s) msg)
    as (r & e & evs & -> & _); [done|].
  eexists. split; [reflexivity|]. cbn. split_and!; [done| |done].
  destruct Hconf as [Hidx _]. rewrite select_length, Hidx.
  apply arange_length; [|lia]. unfold FULL_SCAN in Hdiv. lia.
Qed.

(** X7: A horizon below zero: for [N_SIM < -1] the cycle raises [ValueError]
    before it reads the message, stores anything or calls the policy; for
    [N_SIM = -1] it stores the state, calls the policy once and raises
    [IndexError], so that even in direct-drive mode no command is
    published. *)
Theorem negative_horizon (s : Node) (msg : Odometry) :
  ((N_SIM s < -1)%Z → pose_callback msg s = (Raised ValueError, s, []))
  ∧ (N_SIM s = (-1)%Z →
     pose_callback msg s
     = (Raised IndexError,
        set_heading ((first_action s msg).1, get_beta (first_action s msg).1)
          (set_vels (x (linear msg), y (linear msg), z (angular msg))
             (set_pose (x (position msg), y (position msg), msg_yaw msg) s)),
        [ModelRun (first_obs s msg)])).
Proof.
  split; intros Hn.
  - by apply pose_callback_no_rows.
  - by apply pose_callback_no_row0.
Qed.

(** X8: [lidar2world] adds the pose, an array of shape [(1, 2)], to a matrix of
    shape [(2, n)]: for every scan whose number of readings is neither 1
    nor 2 it raises [ValueError]; for two readings it returns a matrix of
    two rows of two entries in which the y of the vehicle is added to the x
    coordinate of the second point. *)
Theorem lidar2world_shape (lidar angles : list R) (s : Node) :
  length lidar = length angles →
  (length lidar ≠ 1%nat → length lidar ≠ 2%nat →
   lidar2world lidar angles s = (Raised ValueError, s, []))
  ∧ (∀ l1 l2 a1 a2 px py yaw,
       lidar = [l1; l2] → angles = [a1; a2] → self_pose s = (px, py, Some yaw) →
       lidar2world lidar angles s
       = (Ok [[Some (cos yaw * (l1 * cos a1) + - sin yaw * (l1 * sin a1) + px);
               Some (cos yaw * (l2 * cos a2) + - sin yaw * (l2 * sin a2) + py)];
              [Some (sin yaw * (l1 * cos a1) + cos yaw * (l1 * sin a1) + px);
               Some (sin yaw * (l2 * cos a2) + cos yaw * (l2 * sin a2) + py)]],
          s, [])).
Proof.
  intros Hlen. split.
  - intros H1 H2. unfold lidar2world.
    rewrite (broadcast_same Rmult lidar (cos <$> angles)) by (by rewrite length_fmap).
    rewrite (run_lift_ok (zip_with Rmult lidar (cos <$> angles))).
    rewrite (broadcast_same Rmult lidar (sin <$> angles)) by (by rewrite length_fmap).
    rewrite (run_lift_ok (zip_with Rmult lidar (sin <$> angles))), run_gets.
    rewrite (broadcast_mismatch nan_add
               (zip_with (λ u v, (λ yaw, cos yaw * u + - sin yaw * v)
                                   <$> (self_pose s).2) _ _));
      [reflexivity| | |cbn; lia].
    + rewrite !length_zip_with, !length_fmap. cbn. lia.
    + rewrite !length_zip_with, !length_fmap. lia.
  - intros l1 l2 a1 a2 px py yaw -> -> Hpose. unfold lidar2world.
    cbn [fmap list_fmap].
    rewrite (broadcast_same Rmult [l1; l2] [cos a1; cos a2]) by done.
    rewrite (run_lift_ok [l1 * cos a1; l2 * cos a2]).
    rewrite (broadcast_same Rmult [l1; l2] [sin a1; sin a2]) by done.
    rewrite (run_lift_ok [l1 * sin a1; l2 * sin a2]), run_gets, Hpose.
    reflexivity.
Qed.

(** ** Further properties of the angles *)

(** X9: The orientation that [visualize_future_pose] writes for a yaw between 0
    and [2 PI] is read back as that yaw by [pose_callback]. *)
Theorem yaw_round_trip (s : Node) (pos lin ang : Vector3) (yaw : R) :
  (-1 <= N_SIM s)%Z → 0 <= yaw <= 2 * PI →
  (self_pose
     (pose_callback {| position := pos; orientation := yaw_orientation yaw;
                       linear := lin; angular := ang |} s).1.2).2
  = Some yaw.
Proof.
  intros Hn Hyaw. rewrite stored_yaw by done. unfold msg_yaw. cbn.
  rewrite arccos_in by (destruct (COS_bound (yaw / 2)); lra).
  cbn. f_equal. rewrite acos_cos by lra. lra.
Qed.

Lemma mod_small (a m : R) : 0 <= a < m → Np.mod_ a m = a.
Proof.
  intros Ha. rewrite (mod_shift a m 0); lra.
Qed.

Lemma mod_period (a m : R) (k : Z) :
  0 < m → Np.mod_ (a + IZR k * m) m = Np.mod_ a m.
Proof.
  intros Hm. unfold Np.mod_.
  destruct (floor_spec (a / m)) as [Hlo Hhi].
  rewrite (floor_unique ((a + IZR k * m) / m) (Np.floor (a / m) + k)).
  - rewrite plus_IZR. lra.
  - rewrite plus_IZR.
    replace ((a + IZR k * m) / m) with (a / m + IZR k) by (field; lra). lra.
Qed.

(** X10: The wrapped yaw of a row is the yaw itself when the yaw lies in
    [[-PI, PI)], and it does not change when whole turns are added to the
    yaw. *)
Theorem yaw_wrapped_fixed_periodic (px py yaw yaw_rate vx vy delta : R) :
  (- PI <= yaw < PI →
   st_yaw (to_mppi_state px py (Some yaw) yaw_rate vx vy delta) = Some yaw)
  ∧ ∀ k : Z,
      st_yaw (to_mppi_state px py (Some (yaw + IZR k * (2 * PI)))
                yaw_rate vx vy delta)
      = st_yaw (to_mppi_state px py (Some yaw) yaw_rate vx vy delta).
Proof.
  assert (Hpi := PI_RGT_0). split.
  - intros Hyaw. cbn. f_equal. rewrite mod_small; lra.
  - intros k. cbn. f_equal. f_equal.
    replace (yaw + IZR k * (2 * PI) + PI) with (yaw + PI + IZR k * (2 * PI))
      by lra.
    apply mod_period. lra.
Qed.

Lemma beta_ratio : 0 < LR / (LF + LR) < 1.
Proof.
  unfold LF, LR. split.
  - apply Rdiv_lt_0_compat; lra.
  - apply (Rmult_lt_reg_r (0.15875 + 0.17145)); [lra|].
    replace (0.17145 / (0.15875 + 0.17145) * (0.15875 + 0.17145)) with 0.17145
      by (field; lra).
    lra.
Qed.

Lemma get_beta_nonneg (steer : R) :
  0 <= steer < PI / 2 → 0 <= get_beta steer <= steer.
Proof.
  intros [Hlo Hhi]. destruct beta_ratio as [Hc0 Hc1].
  assert (Hpi := PI_RGT_0). unfold get_beta.
  replace (LR * tan steer / (LF + LR)) with (LR / (LF + LR) * tan steer)
    by (unfold LF, LR; field; lra).
  destruct Hlo as [Hlo|<-].
  - assert (Ht := tan_gt_0 steer Hlo Hhi).
    split.
    + left. rewrite <- atan_0. apply atan_increasing. nra.
    + left. rewrite <- (atan_tan steer) at 2 by lra.
      apply atan_increasing. nra.
  - rewrite tan_0, Rmult_0_r, atan_0. lra.
Qed.

(** X11: The slip angle that the policy gets is an odd function of the steering
    command; for a command below a quarter turn, so for every action of
    [run_model], it has the sign of the command and is not larger than the
    command. *)
Theorem get_beta_odd_bounded (steer : R) :
  get_beta (- steer) = - get_beta steer
  ∧ (0 <= steer < PI / 2 → 0 <= get_beta steer <= steer)
  ∧ (- (PI / 2) < steer <= 0 → steer <= get_beta steer <= 0)
  ∧ (-0.4189 <= steer <= 0.4189 → Rabs (get_beta steer) <= Rabs steer).
Proof.
  assert (Hodd : ∀ t, get_beta (- t) = - get_beta t).
  { intros t. unfold get_beta. rewrite tan_neg, <- atan_opp. f_equal.
    unfold LF, LR. field. lra. }
  assert (Hneg : - (PI / 2) < steer <= 0 → steer <= get_beta steer <= 0).
  { intros Hs. destruct (get_beta_nonneg (- steer)) as [H1 H2]; [lra|].
    rewrite Hodd in H1, H2. lra. }
  assert (Hpi := PI2_1).
  split_and!; [done|apply get_beta_nonneg|done|].
  intros Hs. destruct (Rle_dec 0 steer) as [Hpos|Hpos].
  - destruct (get_beta_nonneg steer) as [H1 H2]; [lra|].
    rewrite !Rabs_pos_eq by lra. done.
  - destruct Hneg as [H1 H2]; [lra|].
    rewrite !Rabs_left1 by lra. lra.
Qed.

Lemma atan_pos (t : R) : 0 < t → 0 < atan t.
Proof. intros Ht. rewrite <- atan_0. by apply atan_increasing. Qed.

Lemma atan_neg (t : R) : t < 0 → atan t < 0.
Proof. intros Ht. rewrite <- atan_0. by apply atan_increasing. Qed.

(** X12: [np.arctan2] returns an angle in [(-PI, PI]], in the half plane of its
    arguments: this is the range of the [beta] of every row, and it is
    [± PI / 2] at most in magnitude when the vehicle moves forwards. *)
Theorem beta_range (px py : R) (yaw : option R) (yaw_rate vx vy delta : R) :
  - PI < st_beta (to_mppi_state px py yaw yaw_rate vx vy delta) <= PI
  ∧ (0 < vx →
     - (PI / 2) < st_beta (to_mppi_state px py yaw yaw_rate vx vy delta) < PI / 2)
  ∧ (0 < vx → vy = 0 →
     st_beta (to_mppi_state px py yaw yaw_rate vx vy delta) = 0).
Proof.
  assert (Hpi := PI_RGT_0). cbn [st_beta to_mppi_state]. unfold Np.arctan2.
  split; [|split].
  - destruct (Rlt_dec 0 vx) as [Hx|Hx].
    { destruct (atan_bound (vy / vx)). lra. }
    destruct (Rlt_dec vx 0) as [Hx'|Hx'].
    + destruct (atan_bound (vy / vx)) as [Hlo Hhi].
      destruct (Rle_dec 0 vy) as [Hy|Hy].
      * assert (vy / vx <= 0).
        { apply Rmult_le_reg_r with (r := - vx); [lra|].
          replace (vy / vx * - vx) with (- vy) by (field; lra). lra. }
        assert (atan (vy / vx) <= 0).
        { destruct H as [H| ->]; [left; by apply atan_neg|rewrite atan_0; lra]. }
        lra.
      * assert (0 < vy / vx).
        { apply Rmult_lt_reg_r with (r := - vx); [lra|].
          replace (vy / vx * - vx) with (- vy) by (field; lra). lra. }
        assert (0 < atan (vy / vx)) by (by apply atan_pos).
        lra.
    + destruct (Rlt_dec 0 vy); [lra|]. destruct (Rlt_dec vy 0); lra.
  - intros Hx. destruct (Rlt_dec 0 vx); [|lra].
    destruct (atan_bound (vy / vx)). lra.
  - intros Hx ->. destruct (Rlt_dec 0 vx); [|lra].
    replace (0 / vx) with 0 by (field; lra). apply atan_0.
Qed.

(** ** Further properties of the planning cycle *)

Lemma mk_markers_length (i : nat) (os : list SimObs) :
  length (mk_markers i os) = length os.
Proof. revert i. induction os as [|o os IH]; intros i; cbn; [done|]. by rewrite IH. Qed.

Lemma mk_markers_lookup (i j : nat) (os : list SimObs) (m : Marker) :
  mk_markers i os !! j = Some m →
  ∃ o, os !! j = Some o
       ∧ m = {| marker_position := (poses_x o, poses_y o);
                marker_orientation := yaw_orientation (poses_theta o);
                marker_id := i + j |}.
Proof.
  revert i j. induction os as [|o os IH]; intros i j; cbn [mk_markers].
  - by rewrite lookup_nil.
  - destruct j as [|j]; cbn [lookup list_lookup].
    + intros Hm. injection Hm as <-. exists o. by rewrite Nat.add_0_r.
    + intros Hm. destruct (IH _ _ Hm) as (o' & Ho' & ->). exists o'.
      split; [done|]. f_equal. lia.
Qed.

(** X13: A planning cycle that completes its rollout publishes one marker per
    simulated step, numbered from 0, at the simulated position, with the
    unit quaternion of the simulated yaw about the vertical axis; the
    current real pose is not among the markers. *)
Theorem markers_published (s : Node) (msg : Odometry) (n : nat) :
  DRIVE s = false → N_SIM s = Z.of_nat n → sim_scans_cover s →
  ∃ ms,
    PublishViz ms ∈ (pose_callback msg s).2
    ∧ length ms = n
    ∧ ∀ j m, ms !! j = Some m →
        marker_id m = j
        ∧ qx (marker_orientation m) = 0
        ∧ qy (marker_orientation m) = 0
        ∧ (qw (marker_orientation m))² + (qz (marker_orientation m))² = 1
        ∧ ∃ st, cycle_steps s msg n !! j = Some st
                ∧ marker_position m = (poses_x (step_sim st), poses_y (step_sim st))
                ∧ marker_orientation m = yaw_orientation (poses_theta (step_sim st)).
Proof.
  intros Hdrive Hn Hcover.
  exists (mk_markers 0 (step_sim <$> cycle_steps s msg n)). split_and!.
  - rewrite (pose_callback_plan s msg n) by done. cbn [snd].
    rewrite !elem_of_cons, elem_of_app, elem_of_cons. auto.
  - rewrite mk_markers_length, length_fmap. unfold cycle_steps.
    apply unroll_length.
  - intros j m Hm. apply mk_markers_lookup in Hm as (o & Ho & ->).
    rewrite list_lookup_fmap in Ho.
    destruct (cycle_steps s msg n !! j) as [st|] eqn:Hst; [|done].
    cbn in Ho. injection Ho as <-. cbn.
    split_and!; [done..| |by exists st].
    rewrite Rplus_comm. apply sin2_cos2.
Qed.

(** The chain of an unrolled rollout. *)
Lemma unroll_chain (index : list nat) (n : nat) (e : EnvState) (a : R * R) :
  (∀ st, unroll index n e a !! 0%nat = Some st →
         step_action st = a ∧ (step_env st, step_sim st) = env_step e a)
  ∧ (∀ i st st',
       unroll index n e a !! i = Some st →
       unroll index n e a !! S i = Some st' →
       step_action st' = step_next st
       ∧ (step_env st', step_sim st') = env_step (step_env st) (step_next st))
  ∧ (∀ i st,
       unroll index n e a !! i = Some st →
       step_next st = clip_scale (model (step_obs st))
       ∧ pose (step_obs st)
         = (poses_x (step_sim st), poses_y (step_sim st),
            Some (poses_theta (step_sim st)))
       ∧ scan (step_obs st) = select (scans (step_sim st)) index
       ∧ heading (step_obs st)
         = ((step_action st).1, get_beta (step_action st).1)).
Proof.
  revert e a. induction n as [|n IH]; intros e a.
  { cbn. split_and!; intros; by rewrite ?lookup_nil in *. }
  destruct (IH (env_step e a).1
              (clip_scale
                 (model {| scan := select (scans (env_step e a).2) index;
                           pose := (poses_x (env_step e a).2,
                                    poses_y (env_step e a).2,
                                    Some (poses_theta (env_step e a).2));
                           vel := (linear_vels_x (env_step e a).2,
                                   linear_vels_y (env_step e a).2,
                                   ang_vels_z (env_step e a).2);
                           heading := (a.1, get_beta a.1) |})))
    as (IH0 & IH1 & IH2).
  cbn [unroll]. split_and!.
  - intros st Hst. cbn in Hst. injection Hst as <-. cbn.
    split; [done|]. by destruct (env_step e a).
  - intros [|i] st st' Hst Hst'; cbn [lookup list_lookup] in Hst, Hst'.
    + injection Hst as <-. cbn. by apply IH0.
    + by apply (IH1 i).
  - intros [|i] st Hst; cbn [lookup list_lookup] in Hst.
    + injection Hst as <-. by cbn.
    + by apply (IH2 i).
Qed.

(** X14: A planning cycle that completes its rollout is a closed loop: after the
    first call of the policy the simulator is reset once, to the pose of
    the message; the first step applies the action of that first call, each
    later step applies the action that the policy returned for the
    observation of the step before it, on the simulator state that this
    step left; and each observation holds the pose and the scan that the
    simulator has just returned, with the action just applied as
    heading. *)
Theorem rollout_closed_loop (s : Node) (msg : Odometry) (n : nat) :
  DRIVE s = false → N_SIM s = Z.of_nat n → sim_scans_cover s →
  let p0 := (x (position msg), y (position msg),
             Rmult 2 <$> Np.arccos (qw (orientation msg))) in
  ∃ sts rest,
    length sts = n
    ∧ (pose_callback msg s).2
      = ModelRun (first_obs s msg) :: EnvReset p0 :: (sts ≫= step_events) ++ rest
    ∧ Forall (λ ev, match ev with
                    | PublishViz _ | PublishTraj _ => True
                    | _ => False
                    end) rest
    ∧ (∀ st, sts !! 0%nat = Some st →
             step_action st = clip_scale (model (first_obs s msg))
             ∧ (step_env st, step_sim st)
               = env_step (env_reset (env s) p0) (step_action st))
    ∧ (∀ i st st', sts !! i = Some st → sts !! S i = Some st' →
         step_action st' = step_next st
         ∧ (step_env st', step_sim st')
           = env_step (step_env st) (step_next st))
    ∧ (∀ i st, sts !! i = Some st →
         step_next st = clip_scale (model (step_obs st))
         ∧ pose (step_obs st)
           = (poses_x (step_sim st), poses_y (step_sim st),
              Some (poses_theta (step_sim st)))
         ∧ scan (step_obs st) = select (scans (step_sim st)) (SCAN_INDEX s)
         ∧ heading (step_obs st)
           = ((step_action st).1, get_beta (step_action st).1)).
Proof.
  intros Hdrive Hn Hcover p0.
  destruct (unroll_chain (SCAN_INDEX s) n (env_reset (env s) p0)
              (first_action s msg)) as (H0 & H1 & H2).
  exists (cycle_steps s msg n). eexists. split_and!.
  - apply unroll_length.
  - rewrite (pose_callback_plan s msg n) by done. reflexivity.
  - destruct (resampled _ _); by repeat constructor.
  - intros st Hst. destruct (H0 st Hst) as [Ha He]. by rewrite Ha.
  - exact H1.
  - exact H2.
Qed.

(** X15: When the outer time step is shorter than the inner one, the resampling
    ratio truncates to 0: a planning cycle in which the scans of the
    simulator cover the scan indices of the node, so that it completes its
    rollout, steps the simulator [n] times and publishes the markers, then
    raises [ValueError] on the slice with a step of 0 and publishes no
    trajectory. *)
Theorem zero_ratio_raises (s : Node) (msg : Odometry) (n : nat) :
  DRIVE s = false → N_SIM s = Z.of_nat n → sim_scans_cover s →
  0 <= sim_time_step (config s) < rl_sim_time_step (config s) →
  (pose_callback msg s).1.1 = Raised ValueError
  ∧ published (pose_callback msg s).2 = []
  ∧ count is_env_step (pose_callback msg s).2 = n
  ∧ ∃ ms, last (pose_callback msg s).2 = Some (PublishViz ms) ∧ length ms = n.
Proof.
  intros Hdrive Hn Hcover [Hlo Hhi].
  assert (Hres : resampled s (fine_traj s msg n) = Raised ValueError).
  { unfold resampled, Py.div.
    destruct (Req_dec_T _ 0); [lra|]. rewrite bind_ok.
    rewrite (int_unique _ 0); [done|lia|].
    split.
    - apply Rmult_le_reg_r with (r := rl_sim_time_step (config s)); [lra|].
      replace (sim_time_step (config s) / rl_sim_time_step (config s)
               * rl_sim_time_step (config s))
        with (sim_time_step (config s)) by (field; lra).
      lra.
    - apply Rmult_lt_reg_r with (r := rl_sim_time_step (config s)); [lra|].
      replace (sim_time_step (config s) / rl_sim_time_step (config s)
               * rl_sim_time_step (config s))
        with (sim_time_step (config s)) by (field; lra).
      lra. }
  rewrite (pose_callback_plan s msg n) by done. cbn [fst snd]. rewrite Hres.
  split_and!.
  - done.
  - change (ModelRun ?o :: EnvReset ?p :: ?l) with ([ModelRun o; EnvReset p] ++ l).
    by rewrite !published_app, published_steps.
  - rewrite !count_cons, count_app, count_cons.
    destruct (count_steps (cycle_steps s msg n)) as [_ ->].
    unfold cycle_steps. rewrite unroll_length. cbn. lia.
  - eexists. split.
    + rewrite !app_comm_cons. apply last_snoc.
    + rewrite mk_markers_length, length_fmap. apply unroll_length.
Qed.

(** The first iteration of the loop, when the scan of the simulator does
    not reach one of the indices. *)
Lemma pose_callback_short_run (s : Node) (msg : Odometry) (n i : nat) :
  DRIVE s = false → N_SIM s = Z.of_nat (S n) →
  i ∈ SCAN_INDEX s →
  (∀ e a, (length (scans (env_step e a).2) <= i)%nat) →
  ∃ s', pose_callback msg s
        = (Raised IndexError, s',
           [ModelRun (first_obs s msg);
            EnvReset (x (position msg), y (position msg),
                      Rmult 2 <$> Np.arccos (qw (orientation msg)));
            EnvStep (clip_scale (model (first_obs s msg)))]).
Proof.
  intros Hdrive Hn Hi Hshort.
  rewrite (pose_callback_head s msg (S n) Hn), Hdrive.
  rewrite run_reset. unfold mbind at 1, M_bind at 1.
  cbn [seq rollout_loop]. unfold mbind at 1, M_bind at 1.
  unfold rollout_step. unfold mbind at 1, M_bind at 1, step.
  cbn [v_steer v_vel env set_env estimated set_heading set_vels set_pose].
  rewrite <- (surjective_pairing (first_action s msg)).
  specialize (Hshort (env_reset (env s)
                        (x (position msg), y (position msg), msg_yaw msg))
                (first_action s msg)).
  destruct (env_step _ _) as [e o]. cbn [snd] in Hshort.
  rewrite run_gets. cbn [SCAN_INDEX set_env].
  rewrite (take_short _ _ i) by done.
  rewrite run_lift_raised. eexists. reflexivity.
Qed.

(** X16: When the simulator returns a scan that does not reach one of the
    indices of the node, a planning cycle with a horizon of at least one
    step raises [IndexError] in its first iteration: the policy has been
    called once, the simulator reset and stepped once, and neither markers
    nor a trajectory are published. *)
Theorem short_simulator_scan (s : Node) (msg : Odometry) (n i : nat) :
  DRIVE s = false → N_SIM s = Z.of_nat (S n) →
  i ∈ SCAN_INDEX s →
  (∀ e a, (length (scans (env_step e a).2) <= i)%nat) →
  let p0 := (x (position msg), y (position msg),
             Rmult 2 <$> Np.arccos (qw (orientation msg))) in
  (pose_callback msg s).1.1 = Raised IndexError
  ∧ (pose_callback msg s).2
    = [ModelRun (first_obs s msg); EnvReset p0;
       EnvStep (clip_scale (model (first_obs s msg)))].
Proof.
  intros Hdrive Hn Hi Hshort p0.
  destruct (pose_callback_short_run s msg n i Hdrive Hn Hi Hshort) as [s' ->].
  by split.
Qed.

Lemma clip_scale_bounds (control : R * R) :
  -0.4189 <= (clip_scale control).1 <= 0.4189
  ∧ -4.0 <= (clip_scale control).2 <= 4.0.
Proof.
  destruct (clip_bounds control.1 (-1) 1) as [? ?]; [lra|].
  destruct (clip_bounds control.2 (-1) 1) as [? ?]; [lra|].
  cbn. lra.
Qed.

Lemma every_from_subseteq {A} (k skip : nat) (l : list A) (a : A) :
  a ∈ Py.every_from k skip l → a ∈ l.
Proof.
  revert skip. induction l as [|b l IH]; intros skip; cbn; [done|].
  destruct skip as [|skip].
  - rewrite !elem_of_cons. intros [->|Ha]; [by left|right; by eapply IH].
  - intros Ha. right. by eapply IH.
Qed.

(** X17: Every command that leaves the node is within the physical bounds: the
    drive command of a direct-drive cycle, and, in a planning cycle that
    completes its rollout, every action given to the simulator and the
    steering angle of every row of every published trajectory, whatever
    the resampling ratio is. *)
Theorem commands_within_bounds (s : Node) (msg : Odometry) :
  (DRIVE s = true →
   ∀ steer speed, PublishDrive steer speed ∈ (pose_callback msg s).2 →
     -0.4189 <= steer <= 0.4189 ∧ -4.0 <= speed <= 4.0)
  ∧ (∀ n, DRIVE s = false → N_SIM s = Z.of_nat n → sim_scans_cover s →
       (∀ a, EnvStep a ∈ (pose_callback msg s).2 →
             -0.4189 <= a.1 <= 0.4189 ∧ -4.0 <= a.2 <= 4.0)
       ∧ (∀ traj row, PublishTraj traj ∈ (pose_callback msg s).2 →
            row ∈ traj → -0.4189 <= st_delta row <= 0.4189)).
Proof.
  split.
  - intros Hdrive steer speed Hin.
    assert (Hcases : (N_SIM s < -1 ∨ N_SIM s = -1 ∨ 0 <= N_SIM s)%Z) by lia.
    destruct Hcases as [Hn|[Hn|Hn]].
    + rewrite pose_callback_no_rows in Hin by done. by apply elem_of_nil in Hin.
    + rewrite pose_callback_no_row0 in Hin by done. cbn [snd] in Hin.
      apply list_elem_of_singleton in Hin. discriminate Hin.
    + rewrite pose_callback_drive in Hin by done. cbn [snd] in Hin.
      rewrite !elem_of_cons in Hin. destruct Hin as [Hin|[Hin|Hin]].
      * discriminate Hin.
      * injection Hin as -> ->. apply clip_scale_bounds.
      * by apply elem_of_nil in Hin.
  - intros n Hdrive Hn Hcover.
    destruct (unroll_chain (SCAN_INDEX s) n
                (env_reset (env s)
                   (x (position msg), y (position msg), msg_yaw msg))
                (first_action s msg)) as (H0 & H1 & H2).
    assert (Hsteps : ∀ st, st ∈ cycle_steps s msg n →
              (-0.4189 <= (step_action st).1 <= 0.4189
               ∧ -4.0 <= (step_action st).2 <= 4.0)
              ∧ -0.4189 <= (step_next st).1 <= 0.4189).
    { intros st Hst. apply list_elem_of_lookup in Hst as [j Hj].
      split.
      - destruct j as [|j].
        + destruct (H0 st Hj) as [-> _]. apply clip_scale_bounds.
        + destruct (lookup_lt_is_Some_2 (cycle_steps s msg n) j) as [st0 Hst0].
          { apply lookup_lt_Some in Hj. lia. }
          destruct (H1 j st0 st Hst0 Hj) as [-> _].
          destruct (H2 j st0 Hst0) as [-> _]. apply clip_scale_bounds.
      - destruct (H2 j st Hj) as [-> _]. apply clip_scale_bounds. }
    rewrite (pose_callback_plan s msg n) by done. cbn [snd]. split.
    + intros a Ha. rewrite !elem_of_cons, elem_of_app, elem_of_cons in Ha.
      destruct Ha as [Ha|[Ha|[Ha|[Ha|Ha]]]]; try discriminate Ha.
      * apply list_elem_of_bind in Ha as (st & Ha & Hst).
        unfold step_events in Ha. rewrite !elem_of_cons in Ha.
        destruct Ha as [Ha|[Ha|Ha]]; [|discriminate Ha|by apply elem_of_nil in Ha].
        injection Ha as ->. by apply Hsteps.
      * destruct (resampled _ _); [|by apply elem_of_nil in Ha].
        apply list_elem_of_singleton in Ha. discriminate Ha.
    + intros traj row Htraj Hrow.
      rewrite !elem_of_cons, elem_of_app, elem_of_cons in Htraj.
      destruct Htraj as [Ht|[Ht|[Ht|[Ht|Ht]]]]; try discriminate Ht.
      * apply list_elem_of_bind in Ht as (st & Ht & Hst).
        unfold step_events in Ht. rewrite !elem_of_cons in Ht.
        destruct Ht as [Ht|[Ht|Ht]]; [discriminate Ht..|by apply elem_of_nil in Ht].
      * destruct (resampled s (fine_traj s msg n)) as [t|e] eqn:Hres;
          [|by apply elem_of_nil in Ht].
        apply list_elem_of_singleton in Ht. injection Ht as ->.
        assert (Hfine : row ∈ fine_traj s msg n).
        { unfold resampled in Hres.
          destruct (Py.div _ _) as [ratio|e]; [|discriminate Hres].
          rewrite bind_ok in Hres. unfold Py.slice_step in Hres.
          destruct (decide _).
          - apply Ok_inj in Hres. subst t. by eapply every_from_subseteq.
          - destruct (decide _); [discriminate Hres|].
            apply Ok_inj in Hres. subst t.
            apply every_from_subseteq in Hrow. by rewrite elem_of_reverse in Hrow. }
        unfold fine_traj in Hfine. apply elem_of_cons in Hfine as [->|Hfine].
        -- cbn. apply clip_scale_bounds.
        -- apply list_elem_of_fmap in Hfine as (st & -> & Hst). cbn.
           by apply Hsteps.
Qed.

(** X18: The last row of the published trajectory is the row [(n / k) * k] of
    the fine-grained one: the state at the end of the horizon is published
    when the ratio [k] divides the horizon [n], and it is dropped
    otherwise. *)
Theorem published_last_row (s : Node) (msg : Odometry) (n k : nat) :
  DRIVE s = false → N_SIM s = Z.of_nat n → sim_scans_cover s →
  rl_sim_time_step (config s) ≠ 0 →
  Np.int (sim_time_step (config s) / rl_sim_time_step (config s)) = Z.of_nat k →
  (0 < k)%nat →
  ∃ traj,
    published (pose_callback msg s).2 = [traj]
    ∧ last traj = fine_traj s msg n !! (n / k * k)%nat
    ∧ ((n mod k = 0)%nat → last traj = last (fine_traj s msg n))
    ∧ ((n mod k ≠ 0)%nat → (n / k * k < n)%nat).
Proof.
  intros Hdrive Hn Hcover Hrl Hk Hpos.
  exists (Py.every_from k 0 (fine_traj s msg n)).
  assert (Hlen : length (Py.every_from k 0 (fine_traj s msg n)) = S (n / k)).
  { rewrite every_from_length, fine_traj_length by done.
    replace (n + 1 + (k - 1) - 0)%nat with (n + 1 * k)%nat by lia.
    rewrite Nat.div_add by lia. lia. }
  assert (Hlast : last (Py.every_from k 0 (fine_traj s msg n))
                  = fine_traj s msg n !! (n / k * k)%nat).
  { rewrite last_lookup, Hlen. cbn [pred]. by rewrite every_from_lookup. }
  assert (Hdm := Nat.div_mod_eq n k).
  split_and!.
  - by apply pose_callback_published.
  - done.
  - intros Hmod. rewrite Hlast, last_lookup, fine_traj_length.
    f_equal. replace (n + 1)%nat with (S n) by lia. cbn [pred]. lia.
  - intros Hmod. nia.
Qed.
(** ** The two slip angles *)

Lemma reachable_heading (cfg : Config) (s : Node) :
  reachable cfg s → heading_consistent (self_heading s).
Proof.
  induction 1 as [s Hinit|s msg _ IH|s msg _ IH].
  - apply init_inv in Hinit as (_ & -> & _).
    unfold heading_consistent. cbn. by rewrite get_beta_0.
  - by destruct (laser_callback_any msg s) as (r & row & -> & _).
  - destruct (decide (N_SIM s < -1)%Z) as [Hn|Hn].
    + by rewrite pose_callback_no_rows.
    + by destruct (pose_callback_any s msg) as (r & e & evs & -> & _); [lia|].
Qed.

(** C5: two slip angles are used and kept apart.  The heading fed to the
    policy always pairs a steering command with the kinematic slip angle
    [atan (LR * tan steer / (LF + LR))] of that command: every cycle starts
    with a call of the policy on the stored heading, which has that shape
    in every state of a running node; in a planning cycle each step of the
    simulator is followed by a call of the policy whose heading is the
    steering command just applied to the simulator with its kinematic slip
    angle, and there is no other call of the policy.  The [beta] of a
    formatted row is [arctan2 vy vx]: in the published trajectory it is
    the velocity angle of the message for the first row and that of the
    simulated state for the others.  The two formulas differ. *)
Theorem slip_angle_definitions (s : Node) (msg : Odometry) :
  heading_consistent (self_heading s) →
  ((-1 <= N_SIM s)%Z →
   ∃ obs, (pose_callback msg s).2 !! 0%nat = Some (ModelRun obs)
          ∧ heading obs = self_heading s
          ∧ (heading obs).2 = atan (LR * tan (heading obs).1 / (LF + LR)))
  ∧ (∀ n, DRIVE s = false → N_SIM s = Z.of_nat n → sim_scans_cover s →
       ∃ sts rest,
         length sts = n
         ∧ (pose_callback msg s).2
           = ModelRun (first_obs s msg)
             :: EnvReset (x (position msg), y (position msg),
                          Rmult 2 <$> Np.arccos (qw (orientation msg)))
             :: (sts ≫= λ st, [EnvStep (step_action st); ModelRun (step_obs st)])
                ++ rest
         ∧ Forall (λ ev, is_model_run ev = false) rest
         ∧ Forall (λ st, heading (step_obs st)
                         = ((step_action st).1,
                            atan (LR * tan (step_action st).1 / (LF + LR))))
             sts)
  ∧ (∀ obs, ModelRun obs ∈ (pose_callback msg s).2 →
            (heading obs).2 = atan (LR * tan (heading obs).1 / (LF + LR)))
  ∧ heading_consistent (self_heading (pose_callback msg s).1.2)
  ∧ (∀ cfg s0, reachable cfg s0 → heading_consistent (self_heading s0))
  ∧ (∀ px py yaw yaw_rate vx vy delta,
       st_beta (to_mppi_state px py yaw yaw_rate vx vy delta) = Np.arctan2 vy vx)
  ∧ (∀ n k, DRIVE s = false → N_SIM s = Z.of_nat n → sim_scans_cover s →
       rl_sim_time_step (config s) ≠ 0 →
       Np.int (sim_time_step (config s) / rl_sim_time_step (config s))
       = Z.of_nat k →
       (0 < k)%nat →
       ∃ traj,
         published (pose_callback msg s).2 = [traj]
         ∧ (0 < length traj)%nat
         ∧ ∀ j row, traj !! j = Some row →
             ∃ v, recorded_velocities s msg n !! (j * k)%nat = Some v
                  ∧ st_beta row = Np.arctan2 v.2 v.1)
  ∧ get_beta 0 ≠ Np.arctan2 1 0.
Proof.
  intros Hhead. split_and!.
  - intros Hn.
    destruct (pose_callback_any s msg) as (r & e & evs & -> & _); [done|].
    exists (first_obs s msg). by split_and!.
  - intros n Hdrive Hn Hcover.
    destruct (unroll_chain (SCAN_INDEX s) n
                (env_reset (env s)
                   (x (position msg), y (position msg), msg_yaw msg))
                (first_action s msg)) as (_ & _ & Hobs).
    exists (cycle_steps s msg n). eexists. split_and!.
    + apply unroll_length.
    + rewrite (pose_callback_plan s msg n) by done. reflexivity.
    + destruct (resampled _ _); by repeat constructor.
    + apply Forall_forall. intros st Hst.
      apply list_elem_of_lookup in Hst as [j Hj].
      by destruct (Hobs j st Hj) as (_ & _ & _ & ->).
  - intros obs Hobs.
    destruct (decide (N_SIM s < -1)%Z) as [Hn|Hn].
    { rewrite pose_callback_no_rows in Hobs by done. by apply elem_of_nil in Hobs. }
    destruct (pose_callback_any s msg) as (r & e & evs & Hrun & Hevs); [lia|].
    rewrite Hrun in Hobs. cbn [snd] in Hobs.
    apply elem_of_cons in Hobs as [Heq|Hobs].
    + injection Heq as ->. exact Hhead.
    + rewrite Forall_forall in Hevs. exact (Hevs _ Hobs).
  - destruct (decide (N_SIM s < -1)%Z) as [Hn|Hn].
    { by rewrite pose_callback_no_rows by done. }
    destruct (pose_callback_any s msg) as (r & e & evs & -> & Hevs); [lia|].
    reflexivity.
  - apply reachable_heading.
  - reflexivity.
  - intros n k Hdrive Hn Hcover Hrl Hk Hpos.
    exists (Py.every_from k 0 (fine_traj s msg n)). split_and!.
    + by apply pose_callback_published.
    + rewrite every_from_length, fine_traj_length by done.
      replace (n + 1 + (k - 1) - 0)%nat with (n + 1 * k)%nat by lia.
      rewrite Nat.div_add by lia. lia.
    + intros j row Hrow. rewrite every_from_lookup in Hrow by done.
      cbn [Nat.add] in Hrow.
      assert (Hmap : st_beta <$> fine_traj s msg n
                     = (λ v, Np.arctan2 v.2 v.1) <$> recorded_velocities s msg n).
      { unfold fine_traj, recorded_velocities.
        rewrite !fmap_cons, <- !list_fmap_compose. reflexivity. }
      assert (Hb : (st_beta <$> fine_traj s msg n) !! (j * k)%nat
                   = Some (st_beta row)).
      { by rewrite list_lookup_fmap, Hrow. }
      rewrite Hmap, list_lookup_fmap in Hb.
      destruct (recorded_velocities s msg n !! (j * k)%nat) as [v|];
        [|discriminate Hb].
      exists v. cbn in Hb. injection Hb as Hb. by split.
  - rewrite get_beta_0, arctan2_axis. assert (Hpi := PI_RGT_0). lra.
Qed.

End Node.

Arguments config {EnvState} _.
Arguments self_pose {EnvState} _.
Arguments self_vels {EnvState} _.
Arguments self_heading {EnvState} _.
Arguments SCAN_INDEX {EnvState} _.
Arguments laser_scan {EnvState} _.
Arguments env {EnvState} _.
Arguments N_SIM {EnvState} _.
Arguments DRIVE {EnvState} _.
Arguments set_laser_scan {EnvState} _ _.
Arguments fresh {EnvState} _ _.
Arguments init {EnvState} _ _.
Arguments laser_callback {EnvState} _ _.
Arguments pose_callback {EnvState} _ _ _ _ _.
Arguments sim_scans_cover {EnvState} _ _.
Arguments configured {EnvState} _ _.
Arguments first_obs {EnvState} _ _.
Arguments first_action {EnvState} _ _ _.

(** ** The node on the scenario *)

Abbreviation plan_node := (fresh Scenario.make Scenario.plan).
Abbreviation short_node := (fresh Scenario.make Scenario.short).
Abbreviation drive_node := (fresh Scenario.make Scenario.drive).
Abbreviation scenario_callback :=
  (pose_callback Scenario.reset Scenario.step Scenario.policy).

Lemma stride_540 : (FULL_SCAN / 540 = 2)%nat.
Proof. reflexivity. Qed.

Lemma scenario_cover (cfg : Config) :
  num_scans cfg = 540%nat →
  sim_scans_cover Scenario.step (fresh Scenario.make cfg).
Proof.
  intros Hnb e a i Hi. unfold fresh in Hi. cbn [SCAN_INDEX] in Hi.
  rewrite Hnb, stride_540 in Hi. apply arange_elem in Hi; [|lia].
  unfold Scenario.step. cbn [snd scans]. by rewrite length_replicate.
Qed.

Lemma scenario_configured (cfg : Config) :
  num_scans cfg = 540%nat → configured 540 (fresh Scenario.make cfg).
Proof.
  intros Hnb. unfold configured, fresh. cbn [SCAN_INDEX laser_scan].
  by rewrite Hnb, length_replicate.
Qed.

Lemma plan_horizon : N_SIM plan_node = Z.of_nat 8.
Proof.
  unfold fresh, Scenario.plan. cbn [N_SIM n_steps sim_time_step rl_sim_time_step].
  change (Z.of_nat 8) with 8%Z. apply int_unique; [lia|lra].
Qed.

Lemma plan_ratio :
  Np.int (sim_time_step (config plan_node) / rl_sim_time_step (config plan_node))
  = Z.of_nat 4.
Proof.
  unfold fresh, Scenario.plan. cbn [config sim_time_step rl_sim_time_step].
  change (Z.of_nat 4) with 4%Z. apply int_unique; [lia|lra].
Qed.

Lemma short_horizon : N_SIM short_node = Z.of_nat 2.
Proof.
  unfold fresh, Scenario.short. cbn [N_SIM n_steps sim_time_step rl_sim_time_step].
  change (Z.of_nat 2) with 2%Z. apply int_unique; [lia|lra].
Qed.

Lemma drive_horizon : N_SIM drive_node = Z.of_nat 8.
Proof.
  unfold fresh, Scenario.drive. cbn [N_SIM n_steps sim_time_step rl_sim_time_step].
  change (Z.of_nat 8) with 8%Z. apply int_unique; [lia|lra].
Qed.

Lemma inner_step_nonzero : 0.025 ≠ 0.
Proof. lra. Qed.

Lemma scenario_init (cfg : Config) :
  num_scans cfg = 540%nat → rl_sim_time_step cfg ≠ 0 →
  init Scenario.make cfg = Ok (fresh Scenario.make cfg).
Proof.
  intros Hnb Hrl. apply init_run; [|done]. rewrite Hnb. unfold FULL_SCAN. lia.
Qed.


Lemma plan_scans_540 (e : Scenario.SimState) (a : R * R) :
  (length (scans (Scenario.step_540 e a).2) <= 1078)%nat.
Proof.
  unfold Scenario.step_540. cbn [snd scans]. rewrite length_replicate. lia.
Qed.

Lemma plan_last_index : 1078%nat ∈ SCAN_INDEX plan_node.
Proof.
  unfold fresh. cbn [SCAN_INDEX num_scans Scenario.plan]. rewrite stride_540.
  unfold Np.arange. apply list_elem_of_fmap. exists 539%nat.
  split; [reflexivity|]. apply elem_of_seq. unfold FULL_SCAN. cbn. lia.
Qed.


(** At a yaw of [PI] the wrapped yaw is [- PI], which is not in
    [(- PI, PI]]. *)
Lemma yaw_wrapped_range_counterexample :
  st_yaw (to_mppi_state 0 0 (Some PI) 0 0 0 0) = Some (- PI)
  ∧ ¬ (- PI < - PI <= PI).
Proof.
  assert (Hpi := PI_RGT_0). split; [|lra].
  cbn. f_equal. rewrite (mod_shift _ _ 1); lra.
Qed.

Lemma scenario_published :
  published (scenario_callback Scenario.at_origin plan_node).2
  = [Py.every_from 4 0
       (fine_traj _ Scenario.reset Scenario.step Scenario.policy plan_node
          Scenario.at_origin 8)].
Proof.
  apply pose_callback_published.
  - reflexivity.
  - exact plan_horizon.
  - by apply scenario_cover.
  - exact inner_step_nonzero.
  - exact plan_ratio.
  - lia.
Qed.

(** A horizon of 8 and a ratio of 4. *)
Lemma published_trajectory_resampled_witness :
  (DRIVE plan_node = false ∧ N_SIM plan_node = Z.of_nat 8
   ∧ sim_scans_cover Scenario.step plan_node
   ∧ rl_sim_time_step (config plan_node) ≠ 0
   ∧ Np.int (sim_time_step (config plan_node) / rl_sim_time_step (config plan_node))
     = Z.of_nat 4
   ∧ (0 < 4)%nat)
  ∧ ∃ traj,
      published (scenario_callback Scenario.at_origin plan_node).2 = [traj]
      ∧ length traj = 3%nat.
Proof.
  assert (H1 : DRIVE plan_node = false) by reflexivity.
  assert (H3 : sim_scans_cover Scenario.step plan_node)
    by (apply scenario_cover; reflexivity).
  assert (H6 : (0 < 4)%nat) by lia.
  split; [exact (conj H1 (conj plan_horizon (conj H3
                   (conj inner_step_nonzero (conj plan_ratio H6)))))|].
  destruct (published_trajectory_resampled _ Scenario.reset Scenario.step
              Scenario.policy plan_node Scenario.at_origin 8 4
              H1 plan_horizon H3 inner_step_nonzero plan_ratio H6)
    as (traj & Hpub & _ & _ & _ & Hlen).
  exists traj. split; [exact Hpub|]. apply Hlen; reflexivity.
Defined.

(** With a horizon of 8 and a ratio of 4 the published trajectory has 3
    rows, not [(8 + 1) / 4 = 2]. *)
Lemma published_trajectory_resampled_counterexample :
  length <$> published (scenario_callback Scenario.at_origin plan_node).2
  = [3%nat]
  ∧ ((8 + 1) / 4)%nat ≠ 3%nat.
Proof.
  split; [|cbn; lia].
  rewrite scenario_published. cbn [fmap list_fmap].
  rewrite every_from_length, fine_traj_length by lia. reflexivity.
Qed.

Lemma fresh_heading (cfg : Config) :
  heading_consistent (self_heading (fresh Scenario.make cfg)).
Proof. unfold heading_consistent. cbn. by rewrite get_beta_0. Qed.

Lemma short_rows : (-1 <= N_SIM short_node)%Z.
Proof. rewrite short_horizon. lia. Qed.

Lemma short_drive : DRIVE short_node = false.
Proof. reflexivity. Qed.

Lemma short_covered : sim_scans_cover Scenario.step short_node.
Proof. by apply scenario_cover. Qed.

(** The first cycle of a node that has just been set up, with a horizon of
    2: the first call of the policy gets the heading of [__init__], and two
    more calls follow the two steps of the simulator. *)
Lemma slip_angle_definitions_witness :
  (heading_consistent (self_heading short_node)
   ∧ (-1 <= N_SIM short_node)%Z
   ∧ DRIVE short_node = false ∧ N_SIM short_node = Z.of_nat 2
   ∧ sim_scans_cover Scenario.step short_node)
  ∧ (∃ obs, (scenario_callback Scenario.at_origin short_node).2 !! 0%nat
            = Some (ModelRun obs)
            ∧ heading obs = self_heading short_node
            ∧ (heading obs).2 = atan (LR * tan (heading obs).1 / (LF + LR)))
  ∧ ∃ sts rest,
      length sts = 2%nat
      ∧ (scenario_callback Scenario.at_origin short_node).2
        = ModelRun (first_obs short_node Scenario.at_origin)
          :: EnvReset (0, 0, Rmult 2 <$> Np.arccos 1)
          :: (sts ≫= λ st, [EnvStep (step_action Scenario.SimState st);
                            ModelRun (step_obs Scenario.SimState st)])
             ++ rest
      ∧ Forall (λ ev, is_model_run ev = false) rest
      ∧ Forall (λ st, heading (step_obs Scenario.SimState st)
                      = ((step_action Scenario.SimState st).1,
                         atan (LR * tan (step_action Scenario.SimState st).1
                               / (LF + LR))))
          sts.
Proof.
  split; [exact (conj (fresh_heading Scenario.short)
                   (conj short_rows (conj short_drive
                      (conj short_horizon short_covered))))|].
  destruct (slip_angle_definitions _ Scenario.make Scenario.reset Scenario.step
              Scenario.policy short_node Scenario.at_origin
              (fresh_heading Scenario.short)) as (H1 & H2 & _).
  split.
  - exact (H1 short_rows).
  - exact (H2 2%nat short_drive short_horizon short_covered).
Defined.

Lemma drive_rows : (-1 <= N_SIM drive_node)%Z.
Proof. rewrite drive_horizon. lia. Qed.

Lemma unit_w : -1 <= qw (orientation Scenario.at_origin) <= 1.
Proof. cbn. lra. Qed.

Lemma large_w :
  qw (orientation Scenario.malformed) < -1 ∨ 1 < qw (orientation Scenario.malformed).
Proof. right. cbn. lra. Qed.

(** A normalised orientation and one with [w = 2]. *)
Lemma yaw_unclamped_witness :
  ((-1 <= N_SIM drive_node)%Z
   ∧ -1 <= qw (orientation Scenario.at_origin) <= 1
   ∧ (qw (orientation Scenario.malformed) < -1
      ∨ 1 < qw (orientation Scenario.malformed)))
  ∧ (self_pose (scenario_callback Scenario.at_origin drive_node).1.2).2
    = Some (2 * acos (qw (orientation Scenario.at_origin)))
  ∧ (self_pose (scenario_callback Scenario.malformed drive_node).1.2).2 = None.
Proof.
  split; [exact (conj drive_rows (conj unit_w large_w))|]. split.
  - exact (proj1 (yaw_unclamped _ Scenario.reset Scenario.step Scenario.policy
                    drive_node Scenario.at_origin drive_rows) unit_w).
  - exact (proj2 (yaw_unclamped _ Scenario.reset Scenario.step Scenario.policy
                    drive_node Scenario.malformed drive_rows) large_w).
Defined.

(** For [w = 2] the stored yaw is [nan]: nothing clamps [w]. *)
Lemma yaw_unclamped_counterexample :
  qw (orientation Scenario.malformed) = 2
  ∧ (self_pose (scenario_callback Scenario.malformed drive_node).1.2).2 = None.
Proof.
  split; [reflexivity|].
  rewrite stored_yaw by exact drive_rows.
  unfold msg_yaw. by rewrite (arccos_out _ large_w).
Qed.

Lemma divides_540 : (540 * (FULL_SCAN / 540) = FULL_SCAN)%nat.
Proof. reflexivity. Qed.

Lemma full_scan_covers :
  (FULL_SCAN - FULL_SCAN / 540 < length (ranges Scenario.full_scan))%nat.
Proof.
  unfold Scenario.full_scan. cbn [ranges].
  rewrite length_replicate, stride_540. unfold FULL_SCAN. lia.
Qed.

(** A scan of 1080 readings into a buffer of 540. *)
Lemma scan_buffer_witness :
  (configured 540 plan_node
   ∧ (540 * (FULL_SCAN / 540) = FULL_SCAN)%nat
   ∧ (FULL_SCAN - FULL_SCAN / 540 < length (ranges Scenario.full_scan))%nat)
  ∧ ∃ buf,
      laser_callback Scenario.full_scan plan_node
      = (Ok (), set_laser_scan buf plan_node, [])
      ∧ length buf = 540%nat.
Proof.
  assert (H1 : configured 540 plan_node) by (apply scenario_configured; reflexivity).
  split; [exact (conj H1 (conj divides_540 full_scan_covers))|].
  destruct (scan_buffer _ Scenario.make 540 plan_node Scenario.full_scan
              H1 divides_540 full_scan_covers)
    as (buf & Hrun & Hlen & _).
  exists buf. exact (conj Hrun Hlen).
Defined.

(** A scan of 540 readings, a multiple of the 540 beams of the node, makes
    [laser_callback] raise: the buffer keeps the readings of 10 m that it
    had, outside of the range of 0 to 5 m of the scan.  A scan whose range
    bounds are swapped fills the buffer with readings outside of its
    range. *)
Lemma scan_buffer_counterexample :
  init Scenario.make Scenario.plan = Ok plan_node
  ∧ length (ranges Scenario.half_scan) = (1 * num_scans Scenario.plan)%nat
  ∧ laser_callback Scenario.half_scan plan_node
    = (Raised IndexError, plan_node, [])
  ∧ laser_scan plan_node = replicate 540 10
  ∧ ¬ (range_min Scenario.half_scan <= 10 <= range_max Scenario.half_scan)
  ∧ ∃ buf,
      laser_callback Scenario.inverted_scan plan_node
      = (Ok (), set_laser_scan buf plan_node, [])
      ∧ Forall (λ r, ¬ (range_min Scenario.inverted_scan <= r
                        <= range_max Scenario.inverted_scan)) buf.
Proof.
  split_and!.
  - apply scenario_init; [reflexivity|exact inner_step_nonzero].
  - unfold Scenario.half_scan. cbn [ranges]. by rewrite length_replicate.
  - apply (laser_callback_short _ 540).
    + by apply scenario_configured.
    + exact divides_540.
    + unfold Scenario.half_scan. cbn [ranges].
      rewrite length_replicate, stride_540. unfold FULL_SCAN. lia.
  - reflexivity.
  - cbn. lra.
  - eexists. split.
    + apply (laser_callback_run _ 540).
      * by apply scenario_configured.
      * exact divides_540.
      * unfold Scenario.inverted_scan. cbn [ranges].
        rewrite length_replicate, stride_540. unfold FULL_SCAN. lia.
    + apply Forall_fmap, Forall_forall. intros i _. cbn. lra.
Qed.

Lemma plan_positive : (0 < 4)%nat.
Proof. lia. Qed.

(** The first row of the trajectory of the scenario. *)
Lemma published_first_row_witness :
  (DRIVE plan_node = false ∧ N_SIM plan_node = Z.of_nat 8
   ∧ sim_scans_cover Scenario.step plan_node
   ∧ rl_sim_time_step (config plan_node) ≠ 0
   ∧ Np.int (sim_time_step (config plan_node) / rl_sim_time_step (config plan_node))
     = Z.of_nat 4
   ∧ (0 < 4)%nat)
  ∧ ∃ rest,
      published (scenario_callback Scenario.at_origin plan_node).2
      = [to_mppi_state 0 0 (Rmult 2 <$> Np.arccos 1) 0 1 0
           (clip_scale (Scenario.policy (first_obs plan_node Scenario.at_origin))).1
         :: rest].
Proof.
  assert (H1 : DRIVE plan_node = false) by reflexivity.
  assert (H3 : sim_scans_cover Scenario.step plan_node)
    by (apply scenario_cover; reflexivity).
  split; [exact (conj H1 (conj plan_horizon (conj H3
                   (conj inner_step_nonzero (conj plan_ratio plan_positive)))))|].
  exact (proj2 (published_first_row _ Scenario.reset Scenario.step Scenario.policy
                  plan_node Scenario.at_origin 8 4
                  H1 plan_horizon H3 inner_step_nonzero plan_ratio plan_positive)).
Defined.

Lemma drive_rows0 : (0 <= N_SIM drive_node)%Z.
Proof. rewrite drive_horizon. lia. Qed.

(** A cycle of the scenario in direct-drive mode. *)
Lemma drive_mode_returns_witness :
  (DRIVE drive_node = true ∧ (0 <= N_SIM drive_node)%Z)
  ∧ (scenario_callback Scenario.at_origin drive_node).2
    = [ModelRun (first_obs drive_node Scenario.at_origin);
       PublishDrive (first_action Scenario.policy drive_node Scenario.at_origin).1
         (first_action Scenario.policy drive_node Scenario.at_origin).2].
Proof.
  assert (H1 : DRIVE drive_node = true) by reflexivity.
  split; [exact (conj H1 drive_rows0)|].
  destruct (drive_mode_returns _ Scenario.make Scenario.reset Scenario.step
              Scenario.policy drive_node Scenario.at_origin H1)
    as (_ & _ & _ & Hrun & _).
  rewrite (Hrun drive_rows0). reflexivity.
Defined.

(** A normalised orientation: the stored yaw is [2 * acos 1]. *)
Lemma yaw_nonnegative_witness :
  ((-1 <= N_SIM drive_node)%Z ∧ -1 <= qw (orientation Scenario.at_origin) <= 1)
  ∧ ∃ yaw,
      (self_pose (scenario_callback Scenario.at_origin drive_node).1.2).2 = Some yaw
      ∧ yaw = 2 * acos (qw (orientation Scenario.at_origin))
      ∧ 0 <= yaw <= 2 * PI.
Proof.
  split; [exact (conj drive_rows unit_w)|].
  exact (proj1 (yaw_nonnegative _ Scenario.reset Scenario.step Scenario.policy
                  drive_node Scenario.at_origin drive_rows unit_w)).
Defined.

(** ** The further properties on the scenario *)

Arguments lidar2world {EnvState} _ _ _.

Abbreviation seven_node := (fresh Scenario.make Scenario.seven).
Abbreviation coarse_node := (fresh Scenario.make Scenario.coarse).
Abbreviation backwards_node := (fresh Scenario.make Scenario.backwards).
Abbreviation minus_one_node := (fresh Scenario.make Scenario.minus_one).




Lemma stride_7 : (FULL_SCAN / 7 = 154)%nat.
Proof. reflexivity. Qed.

Lemma seven_configured : configured 7 seven_node.
Proof. unfold configured, fresh. cbn [SCAN_INDEX laser_scan num_scans Scenario.seven].
  by rewrite length_replicate. Qed.

Lemma seven_in_range : (0 < 7 <= FULL_SCAN)%nat.
Proof. unfold FULL_SCAN. lia. Qed.

Lemma seven_indivisible : (7 * (FULL_SCAN / 7) ≠ FULL_SCAN)%nat.
Proof. rewrite stride_7. unfold FULL_SCAN. lia. Qed.

(** Seven beams: eight indices, and the scan of 1080 readings raises. *)
Lemma laser_callback_indivisible_witness :
  (configured 7 seven_node ∧ (0 < 7 <= FULL_SCAN)%nat
   ∧ (7 * (FULL_SCAN / 7) ≠ FULL_SCAN)%nat)
  ∧ (7 < length (SCAN_INDEX seven_node))%nat
  ∧ ∃ e, laser_callback Scenario.full_scan seven_node = (Raised e, seven_node, []).
Proof.
  split; [exact (conj seven_configured (conj seven_in_range seven_indivisible))|].
  exact (laser_callback_indivisible _ 7 seven_node Scenario.full_scan
           seven_configured seven_in_range seven_indivisible).
Defined.

Lemma plan_rows : (-1 <= N_SIM plan_node)%Z.
Proof. rewrite plan_horizon. lia. Qed.

(** After the planning cycle of the scenario the node holds the state of
    the message. *)
Lemma rollout_leaves_real_state_witness :
  (-1 <= N_SIM plan_node)%Z
  ∧ self_pose (scenario_callback Scenario.at_origin plan_node).1.2
    = (0, 0, Rmult 2 <$> Np.arccos 1)
  ∧ self_vels (scenario_callback Scenario.at_origin plan_node).1.2 = (1, 0, 0)
  ∧ laser_scan (scenario_callback Scenario.at_origin plan_node).1.2
    = laser_scan plan_node.
Proof.
  split; [exact plan_rows|].
  destruct (rollout_leaves_real_state _ Scenario.reset Scenario.step Scenario.policy
              plan_node Scenario.at_origin plan_rows) as (H1 & H2 & _ & H4).
  exact (conj H1 (conj H2 H4)).
Defined.

(** Two cycles of the scenario. *)
Lemma next_cycle_observation_witness :
  (-1 <= N_SIM plan_node)%Z
  ∧ ∃ obs,
      (scenario_callback Scenario.further
         (scenario_callback Scenario.at_origin plan_node).1.2).2 !! 0%nat
      = Some (ModelRun obs)
      ∧ heading obs
        = ((clip_scale (Scenario.policy (first_obs plan_node Scenario.at_origin))).1,
           get_beta
             (clip_scale (Scenario.policy (first_obs plan_node Scenario.at_origin))).1).
Proof.
  split; [exact plan_rows|]. eexists. split.
  - exact (next_cycle_observation _ Scenario.reset Scenario.step Scenario.policy
             plan_node Scenario.at_origin Scenario.further plan_rows).
  - reflexivity.
Defined.

Lemma plan_configured : configured 540 plan_node.
Proof. by apply scenario_configured. Qed.

(** The scan of 1080 readings, then a pose. *)
Lemma scan_reaches_policy_witness :
  (configured 540 plan_node
   ∧ (540 * (FULL_SCAN / 540) = FULL_SCAN)%nat
   ∧ (FULL_SCAN - FULL_SCAN / 540 < length (ranges Scenario.full_scan))%nat
   ∧ (-1 <= N_SIM plan_node)%Z)
  ∧ ∃ obs,
      (scenario_callback Scenario.at_origin
         (laser_callback Scenario.full_scan plan_node).1.2).2 !! 0%nat
      = Some (ModelRun obs)
      ∧ length (scan obs) = 540%nat.
Proof.
  split; [exact (conj plan_configured (conj divides_540
                   (conj full_scan_covers plan_rows)))|].
  destruct (scan_reaches_policy _ Scenario.reset Scenario.step Scenario.policy
              540 plan_node Scenario.full_scan Scenario.at_origin
              plan_configured divides_540 full_scan_covers plan_rows)
    as (obs & Hev & _ & Hlen & _).
  exists obs. exact (conj Hev Hlen).
Defined.

Lemma backwards_horizon : (N_SIM backwards_node < -1)%Z.
Proof.
  unfold fresh, Scenario.backwards.
  cbn [N_SIM n_steps sim_time_step rl_sim_time_step]. unfold Np.int.
  destruct (Rle_dec 0 _) as [H|H]; [lra|].
  rewrite (floor_unique _ 4); [lia|lra].
Qed.

Lemma minus_one_horizon : N_SIM minus_one_node = (-1)%Z.
Proof.
  unfold fresh, Scenario.minus_one.
  cbn [N_SIM n_steps sim_time_step rl_sim_time_step]. unfold Np.int.
  destruct (Rle_dec 0 _) as [H|H]; [lra|].
  rewrite (floor_unique _ 1); [lia|lra].
Qed.

(** A horizon of -4 and a horizon of -1 (the latter in direct-drive
    mode). *)
Lemma negative_horizon_witness :
  ((N_SIM backwards_node < -1)%Z ∧ N_SIM minus_one_node = (-1)%Z)
  ∧ scenario_callback Scenario.at_origin backwards_node
    = (Raised ValueError, backwards_node, [])
  ∧ (scenario_callback Scenario.at_origin minus_one_node).1.1 = Raised IndexError
  ∧ (scenario_callback Scenario.at_origin minus_one_node).2
    = [ModelRun (first_obs minus_one_node Scenario.at_origin)].
Proof.
  split; [exact (conj backwards_horizon minus_one_horizon)|]. split.
  - exact (proj1 (negative_horizon _ Scenario.reset Scenario.step Scenario.policy
                    backwards_node Scenario.at_origin) backwards_horizon).
  - rewrite (proj2 (negative_horizon _ Scenario.reset Scenario.step Scenario.policy
                      minus_one_node Scenario.at_origin) minus_one_horizon).
    split; reflexivity.
Defined.

(** Three readings raise; two readings give a matrix. *)
Lemma lidar2world_shape_witness :
  (length [1; 1; 1] = length [0; 0; 0]
   ∧ length [1; 1; 1] ≠ 1%nat ∧ length [1; 1; 1] ≠ 2%nat)
  ∧ lidar2world [1; 1; 1] [0; 0; 0] plan_node = (Raised ValueError, plan_node, [])
  ∧ ∃ m, lidar2world [1; 2] [0; 0] plan_node = (Ok m, plan_node, []).
Proof.
  assert (H1 : length [1; 1; 1] = length [0; 0; 0]) by reflexivity.
  assert (H2 : length [1; 1; 1] ≠ 1%nat) by (cbn; lia).
  assert (H3 : length [1; 1; 1] ≠ 2%nat) by (cbn; lia).
  split; [exact (conj H1 (conj H2 H3))|]. split.
  - exact (proj1 (lidar2world_shape _ [1; 1; 1] [0; 0; 0] plan_node H1) H2 H3).
  - eexists.
    exact (proj2 (lidar2world_shape _ [1; 2] [0; 0] plan_node eq_refl)
             1 2 0 0 0 0 0 eq_refl eq_refl eq_refl).
Defined.

Lemma zero_turn : 0 <= 0 <= 2 * PI.
Proof. assert (Hpi := PI_RGT_0). lra. Qed.

(** The marker orientation of a yaw of 0 is read back as 0. *)
Lemma yaw_round_trip_witness :
  ((-1 <= N_SIM plan_node)%Z ∧ 0 <= 0 <= 2 * PI)
  ∧ (self_pose
       (scenario_callback
          {| position := position Scenario.at_origin;
             orientation := yaw_orientation 0;
             linear := linear Scenario.at_origin;
             angular := angular Scenario.at_origin |} plan_node).1.2).2
    = Some 0.
Proof.
  split; [exact (conj plan_rows zero_turn)|].
  exact (yaw_round_trip _ Scenario.reset Scenario.step Scenario.policy plan_node
           (position Scenario.at_origin) (linear Scenario.at_origin)
           (angular Scenario.at_origin) 0 plan_rows zero_turn).
Defined.

Lemma zero_wrapped : - PI <= 0 < PI.
Proof. assert (Hpi := PI_RGT_0). lra. Qed.

(** A yaw of 0 is kept. *)
Lemma yaw_wrapped_fixed_periodic_witness :
  - PI <= 0 < PI
  ∧ st_yaw (to_mppi_state 0 0 (Some 0) 0 1 0 0) = Some 0.
Proof.
  split; [exact zero_wrapped|].
  exact (proj1 (yaw_wrapped_fixed_periodic 0 0 0 0 1 0 0) zero_wrapped).
Defined.

Lemma max_steer_small : 0 <= 0.4189 < PI / 2.
Proof. assert (Hpi := PI2_1). lra. Qed.

Lemma min_steer_small : - (PI / 2) < -0.4189 <= 0.
Proof. assert (Hpi := PI2_1). lra. Qed.

Lemma max_steer_range : -0.4189 <= 0.4189 <= 0.4189.
Proof. lra. Qed.

(** The largest commands in both directions. *)
Lemma get_beta_odd_bounded_witness :
  (0 <= 0.4189 < PI / 2 ∧ - (PI / 2) < -0.4189 <= 0
   ∧ -0.4189 <= 0.4189 <= 0.4189)
  ∧ 0 <= get_beta 0.4189 <= 0.4189
  ∧ -0.4189 <= get_beta (-0.4189) <= 0
  ∧ Rabs (get_beta 0.4189) <= Rabs 0.4189.
Proof.
  split; [exact (conj max_steer_small (conj min_steer_small max_steer_range))|].
  split; [|split].
  - exact (proj1 (proj2 (get_beta_odd_bounded 0.4189)) max_steer_small).
  - exact (proj1 (proj2 (proj2 (get_beta_odd_bounded (-0.4189)))) min_steer_small).
  - exact (proj2 (proj2 (proj2 (get_beta_odd_bounded 0.4189))) max_steer_range).
Defined.

Lemma forwards : 0 < 1.
Proof. lra. Qed.

(** Straight ahead at 1 m/s: no slip. *)
Lemma beta_range_witness :
  (0 < 1 ∧ 0 = 0)
  ∧ st_beta (to_mppi_state 0 0 (Some 0) 0 1 0 0) = 0.
Proof.
  split; [exact (conj forwards eq_refl)|].
  exact (proj2 (proj2 (beta_range 0 0 (Some 0) 0 1 0 0)) forwards eq_refl).
Defined.

(** The two markers of the horizon-2 scenario. *)
Lemma markers_published_witness :
  (DRIVE short_node = false ∧ N_SIM short_node = Z.of_nat 2
   ∧ sim_scans_cover Scenario.step short_node)
  ∧ ∃ ms, PublishViz ms ∈ (scenario_callback Scenario.at_origin short_node).2
          ∧ length ms = 2%nat.
Proof.
  split; [exact (conj short_drive (conj short_horizon short_covered))|].
  destruct (markers_published _ Scenario.reset Scenario.step Scenario.policy
              short_node Scenario.at_origin 2 short_drive short_horizon short_covered)
    as (ms & Hin & Hlen & _).
  exists ms. exact (conj Hin Hlen).
Defined.

(** The loop of the horizon-2 scenario. *)
Lemma rollout_closed_loop_witness :
  (DRIVE short_node = false ∧ N_SIM short_node = Z.of_nat 2
   ∧ sim_scans_cover Scenario.step short_node)
  ∧ ∃ sts rest,
      length sts = 2%nat
      ∧ (scenario_callback Scenario.at_origin short_node).2
        = ModelRun (first_obs short_node Scenario.at_origin)
          :: EnvReset (0, 0, Rmult 2 <$> Np.arccos 1)
          :: (sts ≫= step_events Scenario.SimState) ++ rest.
Proof.
  split; [exact (conj short_drive (conj short_horizon short_covered))|].
  destruct (rollout_closed_loop _ Scenario.reset Scenario.step Scenario.policy
              short_node Scenario.at_origin 2 short_drive short_horizon short_covered)
    as (sts & rest & Hlen & Hev & _).
  exists sts, rest. exact (conj Hlen Hev).
Defined.

Lemma coarse_plans : DRIVE coarse_node = false.
Proof. reflexivity. Qed.

Lemma coarse_horizon : N_SIM coarse_node = Z.of_nat 2.
Proof.
  unfold fresh, Scenario.coarse. cbn [N_SIM n_steps sim_time_step rl_sim_time_step].
  change (Z.of_nat 2) with 2%Z. apply int_unique; [lia|lra].
Qed.

Lemma coarse_cover : sim_scans_cover Scenario.step coarse_node.
Proof. by apply scenario_cover. Qed.

Lemma coarse_steps :
  0 <= sim_time_step (config coarse_node) < rl_sim_time_step (config coarse_node).
Proof. cbn. lra. Qed.

(** An outer step of 0.01 s over an inner step of 0.025 s. *)
Lemma zero_ratio_raises_witness :
  (DRIVE coarse_node = false ∧ N_SIM coarse_node = Z.of_nat 2
   ∧ sim_scans_cover Scenario.step coarse_node
   ∧ 0 <= sim_time_step (config coarse_node) < rl_sim_time_step (config coarse_node))
  ∧ (scenario_callback Scenario.at_origin coarse_node).1.1 = Raised ValueError
  ∧ published (scenario_callback Scenario.at_origin coarse_node).2 = [].
Proof.
  split; [exact (conj coarse_plans (conj coarse_horizon
                   (conj coarse_cover coarse_steps)))|].
  destruct (zero_ratio_raises _ Scenario.reset Scenario.step Scenario.policy
              coarse_node Scenario.at_origin 2
              coarse_plans coarse_horizon coarse_cover coarse_steps)
    as (H1 & H2 & _).
  exact (conj H1 H2).
Defined.

Lemma plan_plans : DRIVE plan_node = false.
Proof. reflexivity. Qed.

Lemma plan_horizon_succ : N_SIM plan_node = Z.of_nat (S 7).
Proof. exact plan_horizon. Qed.

(** A simulator of 540 beams under the indices of a lidar of 1080. *)
Lemma short_simulator_scan_witness :
  (DRIVE plan_node = false ∧ N_SIM plan_node = Z.of_nat (S 7)
   ∧ 1078%nat ∈ SCAN_INDEX plan_node
   ∧ ∀ e a, (length (scans (Scenario.step_540 e a).2) <= 1078)%nat)
  ∧ (pose_callback Scenario.reset Scenario.step_540 Scenario.policy
       Scenario.at_origin plan_node).1.1 = Raised IndexError.
Proof.
  split; [exact (conj plan_plans (conj plan_horizon_succ (conj plan_last_index plan_scans_540)))|].
  exact (proj1 (short_simulator_scan _ Scenario.reset Scenario.step_540
                  Scenario.policy plan_node Scenario.at_origin 7 1078
                  plan_plans plan_horizon_succ plan_last_index plan_scans_540)).
Defined.

Lemma drive_drives : DRIVE drive_node = true.
Proof. reflexivity. Qed.

Lemma drive_command :
  PublishDrive (first_action Scenario.policy drive_node Scenario.at_origin).1
    (first_action Scenario.policy drive_node Scenario.at_origin).2
  ∈ (scenario_callback Scenario.at_origin drive_node).2.
Proof.
  rewrite pose_callback_drive; [|reflexivity|exact drive_rows0].
  cbn [snd]. rewrite !elem_of_cons. auto.
Qed.

(** The drive command of the scenario. *)
Lemma commands_within_bounds_witness :
  (DRIVE drive_node = true
   ∧ PublishDrive (first_action Scenario.policy drive_node Scenario.at_origin).1
       (first_action Scenario.policy drive_node Scenario.at_origin).2
     ∈ (scenario_callback Scenario.at_origin drive_node).2)
  ∧ -0.4189 <= (first_action Scenario.policy drive_node Scenario.at_origin).1
    <= 0.4189
  ∧ -4.0 <= (first_action Scenario.policy drive_node Scenario.at_origin).2 <= 4.0.
Proof.
  split; [exact (conj drive_drives drive_command)|].
  exact (proj1 (commands_within_bounds _ Scenario.reset Scenario.step
                  Scenario.policy drive_node Scenario.at_origin)
           drive_drives _ _ drive_command).
Defined.

Lemma plan_cover : sim_scans_cover Scenario.step plan_node.
Proof. by apply scenario_cover. Qed.

Lemma plan_divides : (8 mod 4 = 0)%nat.
Proof. reflexivity. Qed.

(** A horizon of 8 and a ratio of 4: the end of the horizon is
    published. *)
Lemma published_last_row_witness :
  (DRIVE plan_node = false ∧ N_SIM plan_node = Z.of_nat 8
   ∧ sim_scans_cover Scenario.step plan_node
   ∧ rl_sim_time_step (config plan_node) ≠ 0
   ∧ Np.int (sim_time_step (config plan_node) / rl_sim_time_step (config plan_node))
     = Z.of_nat 4
   ∧ (0 < 4)%nat ∧ (8 mod 4 = 0)%nat)
  ∧ ∃ traj,
      published (scenario_callback Scenario.at_origin plan_node).2 = [traj]
      ∧ last traj
        = last (fine_traj _ Scenario.reset Scenario.step Scenario.policy
                  plan_node Scenario.at_origin 8).
Proof.
  split; [exact (conj plan_plans (conj plan_horizon (conj plan_cover
                   (conj inner_step_nonzero (conj plan_ratio
                      (conj plan_positive plan_divides))))))|].
  destruct (published_last_row _ Scenario.reset Scenario.step Scenario.policy
              plan_node Scenario.at_origin 8 4 plan_plans plan_horizon plan_cover
              inner_step_nonzero plan_ratio plan_positive)
    as (traj & Hpub & _ & Hlast & _).
  exists traj. exact (conj Hpub (Hlast plan_divides)).
Defined.
